(** * Velocity dashboard: the numeric pipeline of [app.py]

    The program annotates a frame of daily closing prices with three
    look-back growth rates (240, 480 and 1200 rows), averages them into a
    "Velocity" column, drops the rows that hold a NaN, and maps the last
    remaining Velocity to a trading recommendation.

    Embedding.
    - numpy's [float64] is Rocq's primitive [float] (IEEE 754 binary64,
      round to nearest even, one NaN); its operations are specified by
      [SpecFloat] through the standard library's [FloatAxioms], and facts
      about all floats are proved on that specification.
    - a pandas [Series] of floats is a [list float]; a [DataFrame] is its
      ['Date'] column (the index, as timestamps, none of them missing)
      together with a finite map from column names to float columns, so
      that [data['c'] = s] is a map insert and [data['c']] a lookup that
      raises [KeyError]. The map holds whatever columns the frame was
      fetched with, ['Close'] among them; [dropna] looks at all of them.
    - [calculate_velocity] and [dropna(inplace=True)] update the frame in
      place: the frame they return is the state of that one object
      afterwards.
    - Python exceptions are the [Raise] results of a small error monad.

    Fetching the frame, the charts and tables, and the spreadsheet export
    are not modelled. *)

From Stdlib Require Import ZArith Floats.
From stdpp Require Import gmap strings list fin_maps.

Local Open Scope Z_scope.
Local Open Scope nat_scope.

(** ** Exceptions *)

(** [KeyError key] is raised by [data[key]] and [row[key]] for a missing
    key, [IndexError] by [iloc[-1]] on an empty frame, and
    [KeyError_not_in_index labels] by a selection [data[[...]]] some of
    whose labels are missing: its message lists them. *)
Inductive PyError : Type :=
  | KeyError (key : string)
  | IndexError
  | KeyError_not_in_index (labels : list string).

Inductive result (A : Type) : Type :=
  | Ok (a : A)
  | Raise (e : PyError).
Arguments Ok {A} a.
Arguments Raise {A} e.

Definition rbind {A B} (m : result A) (k : A → result B) : result B :=
  match m with
  | Ok a => k a
  | Raise e => Raise e
  end.

Notation "x ←r m ; k" := (rbind m (λ x, k))
  (at level 20, m at level 100, k at level 200, right associativity,
   format "x  ←r  m ;  '/' k").

(** ** float64 scalars and Series *)

Module F64.

Definition nan : float := PrimFloat.nan.
Definition infinity : float := PrimFloat.infinity.

(** [np.isnan] / [pd.isna] on a float: NaN is the value that differs from
    itself. Infinities are not NA. *)
Definition isna (x : float) : bool := negb (PrimFloat.eqb x x).



(** A price: a positive real number, that is positive and finite. *)
Definition is_price (c : float) : bool :=
  PrimFloat.ltb 0 c && PrimFloat.ltb c PrimFloat.infinity.

End F64.

Abbreviation Series := (list float).

Module Series.

(** [s.shift(periods)] for [periods >= 0]: same length, the first
    [periods] places filled with NaN, the values moved down. *)
Definition shift (periods : nat) (s : Series) : Series :=
  take (length s) (replicate periods F64.nan ++ s).

(** Element-wise arithmetic of two Series over the same index. *)
Definition sub (a b : Series) : Series := zip_with PrimFloat.sub a b.
Definition div (a b : Series) : Series := zip_with PrimFloat.div a b.
Definition add (a b : Series) : Series := zip_with PrimFloat.add a b.

(** Arithmetic against a Python scalar, broadcast over the Series. *)
Definition mul_scalar (a : Series) (k : float) : Series :=
  (λ x, PrimFloat.mul x k) <$> a.
Definition div_scalar (a : Series) (k : float) : Series :=
  (λ x, PrimFloat.div x k) <$> a.

End Series.

(** ** DataFrame *)

Record DataFrame : Type := mkDataFrame {
  Date : list Z;                        (* data['Date'] = data.index *)
  columns : gmap string Series          (* the float64 columns, by name *)
}.

(** Every column has one entry per row. *)
Definition wf_frame (data : DataFrame) : Prop :=
  ∀ name col, columns data !! name = Some col → length col = length (Date data).

(** [data[name]] *)
Definition getitem (data : DataFrame) (name : string) : result Series :=
  match columns data !! name with
  | Some col => Ok col
  | None => Raise (KeyError name)
  end.

(** [data[name] = col] *)
Definition setitem (data : DataFrame) (name : string) (col : Series) : DataFrame :=
  {| Date := Date data; columns := <[name := col]> (columns data) |}.

(** ** calculate_velocity *)

(** [(data['Close'] - data['Close'].shift(n)) / data['Close'].shift(n) * 100] *)
Definition growth (data : DataFrame) (n : nat) : result Series :=
  c1 ←r getitem data "Close";
  c2 ←r getitem data "Close";
  c3 ←r getitem data "Close";
  Ok (Series.mul_scalar
        (Series.div (Series.sub c1 (Series.shift n c2)) (Series.shift n c3))
        100%float).

Definition calculate_velocity (data : DataFrame) : result DataFrame :=
  g ←r growth data 240;
  let data := setitem data "240d Growth" g in
  g ←r growth data 480;
  let data := setitem data "480d Growth" g in
  g ←r growth data 1200;
  let data := setitem data "1200d Growth" g in
  g240 ←r getitem data "240d Growth";
  g480 ←r getitem data "480d Growth";
  g1200 ←r getitem data "1200d Growth";
  let data := setitem data "Velocity"
    (Series.add
       (Series.add
          (Series.div_scalar (Series.mul_scalar g240 1%float) 3%float)
          (Series.div_scalar (Series.mul_scalar g480 1%float) 3%float))
       (Series.div_scalar (Series.mul_scalar g1200 1%float) 3%float)) in
  Ok data.

(** ** dropna *)

(** Row [i] holds no NaN in any float column. *)
Definition notna_row (data : DataFrame) (i : nat) : bool :=
  forallb
    (λ kv : string * Series,
       match kv.2 !! i with
       | Some x => negb (F64.isna x)
       | None => true
       end)
    (map_to_list (columns data)).

(** Keep the entries of [l] whose flag is set. *)
Fixpoint select_rows {A} (keep : list bool) (l : list A) : list A :=
  match keep, l with
  | b :: keep, x :: l => if b then x :: select_rows keep l else select_rows keep l
  | _, _ => []
  end.

(** [data.dropna(inplace=True)]: the frame afterwards. *)
Definition dropna (data : DataFrame) : DataFrame :=
  let keep := notna_row data <$> seq 0 (length (Date data)) in
  {| Date := select_rows keep (Date data);
     columns := select_rows keep <$> columns data |}.

(** ** The last row *)

Record Row : Type := mkRow {
  row_Date : Z;
  row_values : gmap string float
}.

(** [data.iloc[-1]] *)
Definition iloc_last (data : DataFrame) : result Row :=
  match last (Date data) with
  | None => Raise IndexError
  | Some d => Ok {| row_Date := d; row_values := omap last (columns data) |}
  end.

(** [row[name]] *)
Definition row_getitem (r : Row) (name : string) : result float :=
  match row_values r !! name with
  | Some x => Ok x
  | None => Raise (KeyError name)
  end.

(** ** get_trading_recommendation *)

Inductive Zone : Type := Bubble | Overheated | Normal | Slow | Retreat.

(** The text the program shows for each zone. *)
Definition recommendation (z : Zone) : string :=
  match z with
  | Bubble => "버블구간: 매수중단 + 알파매도"
  | Overheated => "과속구간: 차등 소량 매수"
  | Normal => "평속구간: 정상 매수"
  | Slow => "저속구간: 차등 과량 매수"
  | Retreat => "후퇴구간: +알파 매수"
  end.

Definition get_trading_recommendation (velocity : float) : option string :=
  if PrimFloat.ltb 150 velocity then
    Some "버블구간: 매수중단 + 알파매도"
  else if PrimFloat.ltb 100 velocity && PrimFloat.leb velocity 150 then
    Some "과속구간: 차등 소량 매수"
  else if PrimFloat.ltb 50 velocity && PrimFloat.leb velocity 100 then
    Some "평속구간: 정상 매수"
  else if PrimFloat.ltb 0 velocity && PrimFloat.leb velocity 50 then
    Some "저속구간: 차등 과량 매수"
  else if PrimFloat.leb velocity 0 then
    Some "후퇴구간: +알파 매수"
  else None.

(** ** The script: from the fetched frame to the recommendation *)

(** [velocity_data = calculate_velocity(index_data)] followed by
    [velocity_data.dropna(inplace=True)]. *)
Definition velocity_data (index_data : DataFrame) : result DataFrame :=
  data ←r calculate_velocity index_data;
  Ok (dropna data).

(** [latest_data = velocity_data.iloc[-1]] *)
Definition latest_data (index_data : DataFrame) : result Row :=
  data ←r velocity_data index_data;
  iloc_last data.

(** [get_trading_recommendation(latest_data['Velocity'])] *)
Definition current_recommendation (index_data : DataFrame) : result (option string) :=
  latest ←r latest_data index_data;
  v ←r row_getitem latest "Velocity";
  Ok (get_trading_recommendation v).

(** ** Zones as predicates (the conditions of the branches) *)

Definition zone_holds (z : Zone) (v : float) : bool :=
  match z with
  | Bubble => PrimFloat.ltb 150 v
  | Overheated => PrimFloat.ltb 100 v && PrimFloat.leb v 150
  | Normal => PrimFloat.ltb 50 v && PrimFloat.leb v 100
  | Slow => PrimFloat.ltb 0 v && PrimFloat.leb v 50
  | Retreat => PrimFloat.leb v 0
  end.

(** ** The columns [calculate_velocity] writes, as functions of ['Close'] *)

(** The look-back windows and the columns that hold their growth rates. *)
Definition windows : list (nat * string) :=
  [(240, "240d Growth"); (480, "480d Growth"); (1200, "1200d Growth")].

Definition derived_columns : list string :=
  ["240d Growth"; "480d Growth"; "1200d Growth"; "Velocity"].

Definition growth_series (close : Series) (n : nat) : Series :=
  Series.mul_scalar
    (Series.div (Series.sub close (Series.shift n close)) (Series.shift n close))
    100%float.

(** One entry of the ['Velocity'] column: Python reads [g * 1/3] as
    [(g * 1) / 3], and the sum from the left. *)
Definition velocity_of (g240 g480 g1200 : float) : float :=
  PrimFloat.add
    (PrimFloat.add (PrimFloat.div (PrimFloat.mul g240 1) 3)
                   (PrimFloat.div (PrimFloat.mul g480 1) 3))
    (PrimFloat.div (PrimFloat.mul g1200 1) 3).

Definition velocity_series (g240 g480 g1200 : Series) : Series :=
  Series.add
    (Series.add
       (Series.div_scalar (Series.mul_scalar g240 1%float) 3%float)
       (Series.div_scalar (Series.mul_scalar g480 1%float) 3%float))
    (Series.div_scalar (Series.mul_scalar g1200 1%float) 3%float).

(** The frame after [calculate_velocity], when ['Close'] is [close]. *)
Definition annotated (data : DataFrame) (close : Series) : DataFrame :=
  let g240 := growth_series close 240 in
  let g480 := growth_series close 480 in
  let g1200 := growth_series close 1200 in
  {| Date := Date data;
     columns :=
       <["Velocity" := velocity_series g240 g480 g1200]>
         (<["1200d Growth" := g1200]>
            (<["480d Growth" := g480]>
               (<["240d Growth" := g240]> (columns data)))) |}.

(** A frame that holds a price series and nothing else: row [i] is dated
    [i] and closes at [close !! i]. *)
Definition price_frame (close : Series) : DataFrame :=
  {| Date := Z.of_nat <$> seq 0 (length close);
     columns := {[ "Close" := close ]} |}.

(** One entry of a growth column, from the close and the close [n] rows
    earlier. *)
Definition growth_of (c base : float) : float :=
  PrimFloat.mul (PrimFloat.div (PrimFloat.sub c base) base) 100.

(** ** Sample frames *)

(** 1201 rows closing at 100, except the closes of scenario C. *)
Definition scenario_C_close : Series :=
  <[1200 := 300%float]> (<[960 := 200%float]> (<[720 := 250%float]>
    (replicate 1201 100%float))).


(** 1199 rows closing at 100. *)
Definition short_close : Series := replicate 1199 100%float.

(** ** The table, the tickers, and the order of the zones *)

(** The labels of [names], each once, in the order of their first
    occurrence. *)
Fixpoint unique_labels (names : list string) : list string :=
  match names with
  | [] => []
  | name :: names =>
      name :: filter (λ other, other ≠ name) (unique_labels names)
  end.

(** The labels asked for that are no column of the frame. *)
Definition not_found (data : DataFrame) (names : list string) : list string :=
  unique_labels (filter (λ name, columns data !! name = None) names).

(** [data[['Date'] + names]]: the frame of the named columns. When some of
    the names are no column of the frame, pandas raises the [KeyError]
    whose message lists those labels ("[...] not in index"); the list is
    what [KeyError_not_in_index] carries. ['Date'] is always found. *)
Definition select_columns (data : DataFrame) (names : list string)
  : result DataFrame :=
  match not_found data names with
  | [] =>
      Ok {| Date := Date data;
            columns := filter (λ kv : string * Series, kv.1 ∈ names)
                              (columns data) |}
  | labels => Raise (KeyError_not_in_index labels)
  end.

(** The float columns of the table that is shown and exported, after
    ['Date']. *)
Definition table_columns : list string :=
  ["Close"; "240d Growth"; "480d Growth"; "1200d Growth"; "Velocity"].

(** [velocity_data[['Date', 'Close', '240d Growth', '480d Growth',
    '1200d Growth', 'Velocity']]] *)
Definition velocity_table (index_data : DataFrame) : result DataFrame :=
  data ←r velocity_data index_data;
  select_columns data table_columns.

(** The choices of the sidebar and the tickers they stand for. *)
Definition index_choices : list string :=
  ["Nasdaq 100"; "Nasdaq Composite"; "S&P 500"].

Definition ticker_mapping : gmap string string :=
  <["Nasdaq 100" := "^NDX"]>
    (<["Nasdaq Composite" := "^IXIC"]>
       (<["S&P 500" := "^GSPC"]> ∅)).

(** [selected_ticker = ticker_mapping[index_choice]] *)
Definition selected_ticker (index_choice : string) : result string :=
  match ticker_mapping !! index_choice with
  | Some ticker => Ok ticker
  | None => Raise (KeyError index_choice)
  end.

(** The zones from the lowest to the highest. *)
Definition zone_rank (z : Zone) : nat :=
  match z with
  | Retreat => 0 | Slow => 1 | Normal => 2 | Overheated => 3 | Bubble => 4
  end.

(** 1201 rows closing at 100. *)
Definition flat_close : Series := replicate 1201 100%float.


(** ** Shapes of binary64 values, for the rounding lemmas *)

(** The shape of a result: zero or finite of sign [s], of magnitude below
    [2^K]. *)
Definition sf_class (s : bool) (K : Z) (x : spec_float) : Prop :=
  x = S754_zero s
  ∨ ∃ m e, x = S754_finite s m e ∧ (Z.pos (digits2_pos m) + e ≤ K)%Z.

(** Zero, finite or infinite of sign [s]: anything but NaN. *)
Definition sf_signed (s : bool) (x : spec_float) : Prop :=
  match x with
  | S754_zero s' | S754_infinity s' | S754_finite s' _ _ => s' = s
  | S754_nan => False
  end.

(** Not NaN, not minus infinity, and above [-2^K] when negative. *)
Definition sf_lb (K : Z) (x : spec_float) : Prop :=
  match x with
  | S754_nan => False
  | S754_infinity s => s = false
  | S754_zero _ => True
  | S754_finite s m e => s = true → (Z.pos (digits2_pos m) + e ≤ K)%Z
  end.

(** * Facts about binary64 *)

(** The specification-level comparison is antisymmetric and its strict
    order is transitive. *)
Lemma SFcompare_antisym (x y : spec_float) :
  SFcompare y x = CompOpp <$> SFcompare x y.
Proof.
  destruct x as [sx|sx| |sx mx ex], y as [sy|sy| |sy my ey]; simpl;
    try reflexivity; try (destruct sx; reflexivity);
    try (destruct sy; reflexivity);
    try (destruct sx, sy; reflexivity).
  f_equal. change (Pos.compare_cont Eq) with Pos.compare.
  rewrite (Z.compare_antisym ex ey), (Pos.compare_antisym mx my).
  destruct sx, sy, (ex ?= ey)%Z, (mx ?= my)%positive; reflexivity.
Qed.

Lemma SFltb_trans (x y z : spec_float) :
  SFltb x y = true → SFltb y z = true → SFltb x z = true.
Proof.
  unfold SFltb.
  destruct x as [sx|sx| |sx mx ex], y as [sy|sy| |sy my ey],
           z as [sz|sz| |sz mz ez]; simpl;
    try discriminate; try (destruct sx; (discriminate || reflexivity));
    try (destruct sx, sy; (discriminate || reflexivity));
    try (destruct sx, sz; (discriminate || reflexivity));
    try (destruct sy, sz; (discriminate || reflexivity));
    try (destruct sx, sy, sz; (discriminate || reflexivity)).
  change (Pos.compare_cont Eq) with Pos.compare.
  destruct sx, sy, sz; try discriminate; try reflexivity;
    destruct (Z.compare_spec ex ey), (Z.compare_spec ey ez),
             (Z.compare_spec ex ez); try discriminate; try reflexivity;
    try lia;
    destruct (Pos.compare_spec mx my), (Pos.compare_spec my mz),
             (Pos.compare_spec mx mz); simpl;
    try discriminate; try reflexivity; lia.
Qed.

Lemma SFcompare_refl (x : spec_float) :
  x ≠ S754_nan → SFcompare x x = Some Eq.
Proof.
  destruct x as [s|s| |s m e]; simpl; try congruence.
  - destruct s; reflexivity.
  - intros _. change (Pos.compare_cont Eq) with Pos.compare.
    rewrite Z.compare_refl, Pos.compare_refl. destruct s; reflexivity.
Qed.

Import F64.

Lemma isna_true (x : float) : isna x = true ↔ Prim2SF x = S754_nan.
Proof.
  unfold isna. rewrite FloatAxioms.eqb_spec. unfold SFeqb. split.
  - destruct (Prim2SF x) as [s|s| |s m e] eqn:E; try reflexivity;
      rewrite SFcompare_refl by discriminate; discriminate.
  - intros ->. reflexivity.
Qed.

Lemma isna_false (x : float) : isna x = false ↔ Prim2SF x ≠ S754_nan.
Proof.
  rewrite <- isna_true. destruct (isna x); split; congruence.
Qed.

(** A NaN operand makes every comparison false. *)
Lemma ltb_nan_r (c x : float) : isna x = true → PrimFloat.ltb c x = false.
Proof.
  rewrite isna_true, ltb_spec. intros ->. unfold SFltb.
  destruct (Prim2SF c); reflexivity.
Qed.

Lemma leb_nan_l (c x : float) : isna x = true → PrimFloat.leb x c = false.
Proof.
  rewrite isna_true, leb_spec. intros ->. reflexivity.
Qed.

(** On numbers, [c < x] is the negation of [x <= c]. *)
Lemma ltb_negb_leb (c x : float) :
  isna c = false → isna x = false →
  PrimFloat.ltb c x = negb (PrimFloat.leb x c).
Proof.
  rewrite !isna_false, ltb_spec, leb_spec. unfold SFltb, SFleb.
  intros Hc Hx. rewrite (SFcompare_antisym (Prim2SF c) (Prim2SF x)).
  destruct (Prim2SF c) as [sc|sc| |sc mc ec], (Prim2SF x) as [s|s| |s m e];
    try congruence; simpl;
    try (destruct sc; reflexivity); try (destruct s; reflexivity);
    try (destruct sc, s; reflexivity).
  destruct sc, s, (ec ?= e)%Z, (Pos.compare_cont Eq mc m); reflexivity.
Qed.

Lemma ltb_trans (x y z : float) :
  PrimFloat.ltb x y = true → PrimFloat.ltb y z = true → PrimFloat.ltb x z = true.
Proof. rewrite !ltb_spec. apply SFltb_trans. Qed.

(** * Rounding in binary64 *)

Section Rounding.
Local Open Scope Z_scope.

Ltac fexp_lia := unfold fexp, SpecFloat.emin, prec, emax in *; lia.

Lemma digits2_pos_bounds (p : positive) :
  2 ^ (Z.pos (digits2_pos p) - 1) ≤ Z.pos p < 2 ^ Z.pos (digits2_pos p).
Proof.
  induction p as [p IH|p IH|]; cbn [digits2_pos].
  - rewrite Pos2Z.inj_succ, Z.pow_succ_r by lia.
    replace (Z.succ (Z.pos (digits2_pos p)) - 1)
      with (Z.succ (Z.pos (digits2_pos p) - 1)) by lia.
    rewrite Z.pow_succ_r by lia. lia.
  - rewrite Pos2Z.inj_succ, Z.pow_succ_r by lia.
    replace (Z.succ (Z.pos (digits2_pos p)) - 1)
      with (Z.succ (Z.pos (digits2_pos p) - 1)) by lia.
    rewrite Z.pow_succ_r by lia. lia.
  - cbn. lia.
Qed.

Lemma Zdigits2_nonneg (m : Z) : 0 ≤ Zdigits2 m.
Proof. destruct m; cbn; lia. Qed.

(** A number below [2^k] has at most [k] digits. *)
Lemma Zdigits2_le (m k : Z) : 0 ≤ m → 0 ≤ k → m < 2 ^ k → Zdigits2 m ≤ k.
Proof.
  intros Hm Hk Hlt. destruct m as [|p|p]; cbn; [lia| |lia].
  destruct (Z_le_gt_dec (Z.pos (digits2_pos p)) k) as [|Hgt]; [assumption|].
  pose proof (digits2_pos_bounds p) as [Hlo _].
  assert (2 ^ k ≤ 2 ^ (Z.pos (digits2_pos p) - 1))
    by (apply Z.pow_le_mono_r; lia).
  lia.
Qed.

Lemma Zdigits2_lt_pow (m : Z) : 0 ≤ m → m < 2 ^ Zdigits2 m.
Proof.
  intros Hm. destruct m as [|p|p]; cbn; [lia| |lia].
  apply digits2_pos_bounds.
Qed.

Lemma shr_1_div2 (mrs : shr_record) :
  0 ≤ shr_m mrs → shr_m (shr_1 mrs) = shr_m mrs / 2.
Proof.
  destruct mrs as [m r s]. cbn [shr_m]. intros Hm.
  rewrite <- Z.div2_div.
  destruct m as [|[p|p|]|p]; try reflexivity; lia.
Qed.

Lemma iter_shr_1 (p : positive) (mrs : shr_record) :
  0 ≤ shr_m mrs →
  shr_m (SpecFloat.iter_pos shr_1 p mrs) = shr_m mrs / 2 ^ Z.pos p.
Proof.
  revert mrs. induction p as [p IH|p IH|]; intros mrs Hm; cbn [SpecFloat.iter_pos].
  - assert (H1 : 0 ≤ shr_m (shr_1 mrs))
      by (rewrite shr_1_div2 by assumption; apply Z.div_pos; lia).
    assert (H2 : 0 ≤ shr_m (SpecFloat.iter_pos shr_1 p (shr_1 mrs)))
      by (rewrite IH by assumption; apply Z.div_pos; lia).
    rewrite IH, IH, shr_1_div2 by assumption.
    rewrite !Z.div_div by lia. f_equal.
    replace (Z.pos p~1) with (1 + Z.pos p + Z.pos p) by lia.
    rewrite !Z.pow_add_r by lia. change (2 ^ 1) with 2. ring.
  - assert (H2 : 0 ≤ shr_m (SpecFloat.iter_pos shr_1 p mrs))
      by (rewrite IH by assumption; apply Z.div_pos; lia).
    rewrite IH, IH by assumption.
    rewrite !Z.div_div by lia. f_equal.
    replace (Z.pos p~0) with (Z.pos p + Z.pos p) by lia.
    rewrite !Z.pow_add_r by lia. ring.
  - rewrite shr_1_div2 by assumption. reflexivity.
Qed.

Lemma shr_record_of_loc_m (m : Z) (l : location) :
  shr_m (shr_record_of_loc m l) = m.
Proof. destruct l as [|[]]; reflexivity. Qed.

(** What [shr_fexp] leaves: the mantissa shifted right to the exponent
    [fexp] asks for, when that one is larger. *)
Lemma shr_fexp_spec (m e : Z) (l : location) :
  0 ≤ m →
  let n := fexp prec emax (Zdigits2 m + e) - e in
  shr_m (shr_fexp prec emax m e l).1 = (if 0 <? n then m / 2 ^ n else m)
  ∧ (shr_fexp prec emax m e l).2 = (if 0 <? n then e + n else e).
Proof.
  intros Hm n. unfold shr_fexp. fold n.
  destruct n as [|p|p]; cbn [shr fst snd Z.ltb Z.compare];
    rewrite ?shr_record_of_loc_m; auto.
  rewrite iter_shr_1 by (rewrite shr_record_of_loc_m; assumption).
  rewrite shr_record_of_loc_m. auto.
Qed.

Lemma round_nearest_even_bounds (m : Z) (l : location) :
  m ≤ round_nearest_even m l ≤ m + 1.
Proof.
  destruct l as [|[]]; cbn; try destruct (Z.even m); lia.
Qed.

(** Shifting right removes as many digits. *)
Lemma Zdigits2_shift (m n : Z) :
  0 ≤ m → 0 < n → Zdigits2 (m / 2 ^ n) ≤ Z.max 0 (Zdigits2 m - n).
Proof.
  intros Hm Hn.
  assert (Hp : 0 < 2 ^ n) by (apply Z.pow_pos_nonneg; lia).
  assert (Hq : 0 ≤ m / 2 ^ n) by (apply Z.div_pos; lia).
  destruct (Z_le_gt_dec (Zdigits2 m) n) as [Hle|Hgt].
  - assert (m / 2 ^ n = 0) as ->.
    { apply Z.div_small. split; [assumption|].
      pose proof (Zdigits2_lt_pow m Hm).
      assert (2 ^ Zdigits2 m ≤ 2 ^ n) by (apply Z.pow_le_mono_r; lia). lia. }
    cbn. lia.
  - rewrite Z.max_r by lia. apply Zdigits2_le; [assumption|lia|].
    apply Z.div_lt_upper_bound; [assumption|].
    rewrite <- Z.pow_add_r by lia.
    replace (n + (Zdigits2 m - n)) with (Zdigits2 m) by lia.
    apply Zdigits2_lt_pow, Hm.
Qed.


Lemma shr_fexp_nonneg (m e : Z) (l : location) :
  0 ≤ m → 0 ≤ shr_m (shr_fexp prec emax m e l).1.
Proof.
  intros Hm. destruct (shr_fexp_spec m e l Hm) as [-> _].
  destruct (Z.ltb_spec 0 (fexp prec emax (Zdigits2 m + e) - e));
    [apply Z.div_pos; [lia|apply Z.pow_pos_nonneg; lia]|lia].
Qed.

(** After [shr_fexp] the magnitude has not grown. *)
Lemma shr_fexp_magnitude (m e K : Z) (l : location) :
  0 ≤ m → Zdigits2 m + e ≤ K → fexp prec emax K ≤ K →
  Zdigits2 (shr_m (shr_fexp prec emax m e l).1) + (shr_fexp prec emax m e l).2 ≤ K.
Proof.
  intros Hm HK HfK. destruct (shr_fexp_spec m e l Hm) as [-> ->].
  set (n := fexp prec emax (Zdigits2 m + e) - e).
  destruct (Z.ltb_spec 0 n) as [Hn|Hn]; [|assumption].
  pose proof (Zdigits2_shift m n Hm Hn) as Hs.
  pose proof (Zdigits2_nonneg m).
  assert (fexp prec emax (Zdigits2 m + e) ≤ K) by fexp_lia.
  lia.
Qed.

(** The second half of [binary_round_aux]: renormalising the rounded
    mantissa and testing for overflow. *)
Lemma round_tail (s : bool) (m e K : Z) :
  0 ≤ m → Zdigits2 m + e ≤ K → e ≤ emax - prec →
  fexp prec emax K ≤ emax - prec → fexp prec emax K ≤ K →
  sf_class s K
    (let '(mrs, e') := shr_fexp prec emax m e loc_Exact in
     match shr_m mrs with
     | 0 => S754_zero s
     | Z.pos m' =>
         if e' <=? emax - prec then S754_finite s m' e' else S754_infinity s
     | Z.neg _ => S754_nan
     end).
Proof.
  intros Hm HK He HfK HfK'.
  pose proof (shr_fexp_nonneg m e loc_Exact Hm) as Hnn.
  pose proof (shr_fexp_magnitude m e K loc_Exact Hm HK HfK') as Hmag.
  destruct (shr_fexp_spec m e loc_Exact Hm) as [_ He'].
  destruct (shr_fexp prec emax m e loc_Exact) as [mrs e'].
  cbn [fst snd] in *.
  destruct (shr_m mrs) as [|m'|m']; [left; reflexivity| |lia].
  assert (e' ≤ emax - prec) as Hle.
  { rewrite He'. destruct (0 <? _); [|assumption].
    pose proof (Zdigits2_nonneg m). fexp_lia. }
  apply Z.leb_le in Hle. rewrite Hle. right. exists m', e'. auto.
Qed.

Lemma round_tail_signed (s : bool) (m e : Z) :
  0 ≤ m →
  sf_signed s
    (let '(mrs, e') := shr_fexp prec emax m e loc_Exact in
     match shr_m mrs with
     | 0 => S754_zero s
     | Z.pos m' =>
         if e' <=? emax - prec then S754_finite s m' e' else S754_infinity s
     | Z.neg _ => S754_nan
     end).
Proof.
  intros Hm. pose proof (shr_fexp_nonneg m e loc_Exact Hm) as Hnn.
  destruct (shr_fexp prec emax m e loc_Exact) as [mrs e']. cbn [fst] in Hnn.
  destruct (shr_m mrs) as [|m'|m']; [reflexivity| |lia].
  destruct (e' <=? emax - prec); reflexivity.
Qed.

(** Rounding a non-negative mantissa never gives NaN and keeps the sign. *)
Lemma binary_round_aux_signed (s : bool) (m e : Z) (l : location) :
  0 ≤ m → sf_signed s (binary_round_aux prec emax s m e l).
Proof.
  intros Hm. unfold binary_round_aux.
  pose proof (shr_fexp_nonneg m e l Hm) as Hnn.
  destruct (shr_fexp prec emax m e l) as [mrs1 e1]. cbn [fst] in Hnn.
  apply round_tail_signed.
  pose proof (round_nearest_even_bounds (shr_m mrs1) (loc_of_shr_record mrs1)).
  lia.
Qed.

Lemma Zdigits2_succ (m : Z) (m' : Z) :
  0 ≤ m → 0 ≤ m' ≤ m + 1 → Zdigits2 m' ≤ Zdigits2 m + 1.
Proof.
  intros Hm Hm'. pose proof (Zdigits2_nonneg m).
  apply Zdigits2_le; [lia|lia|].
  pose proof (Zdigits2_lt_pow m Hm). rewrite Z.pow_add_r by lia.
  change (2 ^ 1) with 2. lia.
Qed.

(** Rounding a value below [2^k], for [k] well inside the exponent range:
    the result is zero or finite, below or at [2^k]. *)
Lemma binary_round_aux_loose (s : bool) (m e k : Z) (l : location) :
  0 ≤ m → Zdigits2 m + e ≤ k → SpecFloat.emin prec emax ≤ k ≤ emax - prec →
  sf_class s (k + 1) (binary_round_aux prec emax s m e l).
Proof.
  intros Hm Hk Hrange. unfold binary_round_aux.
  pose proof (shr_fexp_nonneg m e l Hm) as Hnn.
  assert (Hmag := shr_fexp_magnitude m e k l Hm Hk ltac:(fexp_lia)).
  destruct (shr_fexp_spec m e l Hm) as [_ He1].
  destruct (shr_fexp prec emax m e l) as [mrs1 e1]. cbn [fst snd] in *.
  pose proof (round_nearest_even_bounds (shr_m mrs1) (loc_of_shr_record mrs1)) as Hr.
  apply round_tail.
  - lia.
  - pose proof (Zdigits2_succ (shr_m mrs1) (round_nearest_even (shr_m mrs1)
                  (loc_of_shr_record mrs1)) Hnn ltac:(lia)). lia.
  - pose proof (Zdigits2_nonneg (shr_m mrs1)). lia.
  - fexp_lia.
  - fexp_lia.
Qed.

(** A number that reaches [2^(k-1)] has at least [k] digits. *)
Lemma Zdigits2_ge (m k : Z) : 2 ^ (k - 1) ≤ m → 1 ≤ k → k ≤ Zdigits2 m.
Proof.
  intros Hlo Hk.
  assert (0 < 2 ^ (k - 1)) by (apply Z.pow_pos_nonneg; lia).
  destruct (Z_le_gt_dec k (Zdigits2 m)) as [|Hgt]; [assumption|].
  pose proof (Zdigits2_lt_pow m ltac:(lia)).
  pose proof (Zdigits2_nonneg m).
  assert (2 ^ Zdigits2 m ≤ 2 ^ (k - 1)) by (apply Z.pow_le_mono_r; lia).
  lia.
Qed.

Lemma Zdigits2_mul_pow2 (m : positive) (d : Z) :
  0 ≤ d → Zdigits2 (Z.pos m * 2 ^ d) = Z.pos (digits2_pos m) + d.
Proof.
  intros Hd. pose proof (digits2_pos_bounds m) as [Hlo Hhi].
  assert (0 < 2 ^ d) by (apply Z.pow_pos_nonneg; lia).
  apply Z.le_antisymm.
  - apply Zdigits2_le; [lia|lia|]. rewrite Z.pow_add_r by lia.
    apply Z.mul_lt_mono_pos_r; assumption.
  - apply Zdigits2_ge; [|lia].
    replace (Z.pos (digits2_pos m) + d - 1)
      with (Z.pos (digits2_pos m) - 1 + d) by lia.
    rewrite Z.pow_add_r by lia. apply Z.mul_le_mono_nonneg_r; lia.
Qed.

(** [shl_align] brings the exponent down to the smaller one and keeps the
    value. *)
Lemma shl_align_spec (m : positive) (e e' : Z) :
  (shl_align m e e').2 = Z.min e e'
  ∧ Z.pos (shl_align m e e').1 = Z.pos m * 2 ^ (e - Z.min e e').
Proof.
  unfold shl_align. destruct (e' - e) as [|d|d] eqn:Hd; cbn [fst snd].
  - rewrite Z.min_l by lia. rewrite Z.sub_diag. lia.
  - rewrite Z.min_l by lia. rewrite Z.sub_diag. lia.
  - rewrite Z.min_r by lia. split; [reflexivity|].
    change (Pos.iter xO m d) with (shift_pos d m).
    rewrite shift_pos_correct, Z.pow_pos_fold.
    replace (e - e') with (Z.pos d) by lia. lia.
Qed.

Lemma bounded_inv (m : positive) (e : Z) :
  bounded prec emax m e = true →
  fexp prec emax (Z.pos (digits2_pos m) + e) = e ∧ e ≤ emax - prec.
Proof.
  unfold bounded, canonical_mantissa.
  intros [H1 H2]%andb_prop. apply Z.eqb_eq in H1. apply Z.leb_le in H2. auto.
Qed.

Lemma binary_round_loose (s : bool) (m : positive) (e k : Z) :
  Z.pos (digits2_pos m) + e ≤ k → SpecFloat.emin prec emax ≤ k ≤ emax - prec →
  sf_class s (k + 1) (binary_round prec emax s m e).
Proof.
  intros Hk Hrange. unfold binary_round.
  destruct (shl_align_spec m e (fexp prec emax (Z.pos (digits2_pos m) + e)))
    as [He Hm].
  destruct (shl_align m e _) as [mz ez]. cbn [fst snd] in *.
  apply binary_round_aux_loose; [lia| |assumption].
  rewrite Hm, Zdigits2_mul_pow2 by lia. lia.
Qed.

Lemma binary_round_signed (s : bool) (m : positive) (e : Z) :
  sf_signed s (binary_round prec emax s m e).
Proof.
  unfold binary_round. destruct (shl_align m e _) as [mz ez].
  apply binary_round_aux_signed. lia.
Qed.

(** Rounding a value below a representable number [M * 2^eM] stays at or
    below it: no overflow, whatever the binade. *)
Lemma binary_round_below (s : bool) (m M : positive) (e eM : Z) :
  bounded prec emax M eM = true →
  e ≤ eM → Z.pos m < Z.pos M * 2 ^ (eM - e) →
  sf_class s (Z.pos (digits2_pos M) + eM) (binary_round prec emax s m e).
Proof.
  intros [HcM HeM]%bounded_inv He Hlt.
  pose proof (digits2_pos_bounds M) as [_ HM].
  set (Ej := Z.pos (digits2_pos M) + eM) in *.
  assert (Hk : Z.pos (digits2_pos m) + e ≤ Ej).
  { assert (Zdigits2 (Z.pos m) ≤ Ej - e); [|cbn in *; lia].
    apply Zdigits2_le; [lia|lia|].
    replace (Ej - e) with (Z.pos (digits2_pos M) + (eM - e)) by lia.
    rewrite Z.pow_add_r by lia.
    assert (0 < 2 ^ (eM - e)) by (apply Z.pow_pos_nonneg; lia). nia. }
  unfold binary_round.
  set (k := Z.pos (digits2_pos m) + e) in *.
  destruct (shl_align_spec m e (fexp prec emax k)) as [Hez Hmz].
  destruct (shl_align m e (fexp prec emax k)) as [mz ez]. cbn [fst snd] in *.
  rewrite <- Hez in Hmz.
  assert (Hdz : Zdigits2 (Z.pos mz) + ez = k)
    by (rewrite Hmz, Zdigits2_mul_pow2 by lia; lia).
  assert (Hfk : fexp prec emax k ≤ eM) by fexp_lia.
  assert (Hmz' : Z.pos mz < Z.pos M * 2 ^ (eM - ez)).
  { rewrite Hmz. replace (eM - ez) with ((eM - e) + (e - ez)) by lia.
    rewrite Z.pow_add_r by lia.
    assert (0 < 2 ^ (e - ez)) by (apply Z.pow_pos_nonneg; lia).
    rewrite Z.mul_assoc. apply Z.mul_lt_mono_pos_r; assumption. }
  unfold binary_round_aux.
  pose proof (shr_fexp_nonneg (Z.pos mz) ez loc_Exact ltac:(lia)) as Hnn.
  destruct (shr_fexp_spec (Z.pos mz) ez loc_Exact ltac:(lia)) as [Hm1 He1].
  rewrite Hdz in Hm1, He1.
  destruct (shr_fexp prec emax (Z.pos mz) ez loc_Exact) as [mrs1 e1].
  cbn [fst snd] in *.
  assert (He1' : e1 = fexp prec emax k).
  { rewrite He1. destruct (Z.ltb_spec 0 (fexp prec emax k - ez)); lia. }
  assert (Hb : shr_m mrs1 < Z.pos M * 2 ^ (eM - e1)).
  { rewrite Hm1. destruct (Z.ltb_spec 0 (fexp prec emax k - ez)) as [Hn|Hn].
    - apply Z.div_lt_upper_bound; [apply Z.pow_pos_nonneg; lia|].
      replace (2 ^ (fexp prec emax k - ez) * (Z.pos M * 2 ^ (eM - e1)))
        with (Z.pos M * 2 ^ (eM - ez)); [assumption|].
      replace (eM - ez) with ((eM - e1) + (fexp prec emax k - ez)) by lia.
      rewrite Z.pow_add_r by lia. ring.
    - replace e1 with ez by lia. assumption. }
  pose proof (round_nearest_even_bounds (shr_m mrs1) (loc_of_shr_record mrs1)) as Hr.
  apply round_tail.
  - lia.
  - assert (Zdigits2 (round_nearest_even (shr_m mrs1) (loc_of_shr_record mrs1))
            ≤ Ej - e1); [|lia].
    apply Zdigits2_le; [lia|lia|].
    replace (Ej - e1) with (Z.pos (digits2_pos M) + (eM - e1)) by lia.
    rewrite Z.pow_add_r by lia.
    assert (0 < 2 ^ (eM - e1)) by (apply Z.pow_pos_nonneg; lia). nia.
  - lia.
  - lia.
  - lia.
Qed.


Lemma sf_lb_signed (K : Z) (x : spec_float) : sf_signed false x → sf_lb K x.
Proof. destruct x as [s|s| |s m e]; cbn; intros H; subst; auto. discriminate. Qed.

Lemma sf_lb_class (s : bool) (K K' : Z) (x : spec_float) :
  sf_class s K x → K ≤ K' → sf_lb K' x.
Proof. intros [->|(m & e & -> & H)] HK; cbn; [auto|lia]. Qed.

Lemma sf_lb_mono (K K' : Z) (x : spec_float) : sf_lb K x → K ≤ K' → sf_lb K' x.
Proof. destruct x as [s|s| |s m e]; cbn; auto. intros H HK Hs. specialize (H Hs). lia. Qed.

(** The quotient and exponent that [SFdiv] hands to the rounding. *)
Lemma SFdiv_core_binary_spec (m1 m2 : positive) (e1 e2 : Z) :
  let r := SFdiv_core_binary prec emax (Z.pos m1) e1 (Z.pos m2) e2 in
  0 ≤ r.1.1
  ∧ Zdigits2 r.1.1 + r.1.2
    ≤ Z.max (Z.pos (digits2_pos m1) + e1 - (Z.pos (digits2_pos m2) + e2) + 1)
            (SpecFloat.emin prec emax).
Proof.
  unfold SFdiv_core_binary. cbn [Zdigits2].
  set (d1 := Z.pos (digits2_pos m1)). set (d2 := Z.pos (digits2_pos m2)).
  set (e' := Z.min (fexp prec emax (d1 + e1 - (d2 + e2))) (e1 - e2)).
  set (s := e1 - e2 - e').
  assert (Hs : 0 ≤ s) by (unfold s, e'; lia).
  set (m' := match s with Z.pos _ => Z.shiftl (Z.pos m1) s | 0 => Z.pos m1
             | Z.neg _ => 0 end).
  assert (Hm' : m' = Z.pos m1 * 2 ^ s).
  { unfold m'. destruct s as [|p|p]; [cbn; lia| |lia].
    apply Z.shiftl_mul_pow2. lia. }
  pose proof (Z_div_mod m' (Z.pos m2) ltac:(lia)) as Hdiv.
  destruct (Z.div_eucl m' (Z.pos m2)) as [q r]. cbn [fst snd].
  destruct Hdiv as [Heq Hr].
  assert (H2s : 0 < 2 ^ s) by (apply Z.pow_pos_nonneg; lia).
  assert (Hq : 0 ≤ q) by nia.
  split; [assumption|].
  destruct (Z.eq_dec q 0) as [->|Hq0].
  - cbn [Zdigits2]. unfold e'. fexp_lia.
  - pose proof (digits2_pos_bounds m1) as [_ H1]. fold d1 in H1.
    pose proof (digits2_pos_bounds m2) as [H2 _]. fold d2 in H2.
    assert (Hd2 : 0 < 2 ^ (d2 - 1)) by (apply Z.pow_pos_nonneg; lia).
    assert (Hlt : q * 2 ^ (d2 - 1) < 2 ^ (d1 + s)).
    { rewrite Z.pow_add_r by lia. nia. }
    assert (Hexp : 0 ≤ d1 + s - d2 + 1).
    { destruct (Z_le_gt_dec 0 (d1 + s - d2 + 1)) as [|Hneg]; [assumption|].
      assert (2 ^ (d1 + s) ≤ 2 ^ (d2 - 1)) by (apply Z.pow_le_mono_r; lia).
      nia. }
    assert (Zdigits2 q ≤ d1 + s - d2 + 1); [|unfold s in *; lia].
    apply Zdigits2_le; [lia|lia|].
    replace (d1 + s) with ((d1 + s - d2 + 1) + (d2 - 1)) in Hlt by lia.
    rewrite Z.pow_add_r in Hlt by lia.
    apply Z.mul_lt_mono_pos_r in Hlt; assumption.
Qed.

Lemma SFdiv_finite_signed (sx sy : bool) (mx my : positive) (ex ey : Z) :
  sf_signed (xorb sx sy)
    (SFdiv prec emax (S754_finite sx mx ex) (S754_finite sy my ey)).
Proof.
  cbn [SFdiv].
  destruct (SFdiv_core_binary_spec mx my ex ey) as [Hq _].
  destruct (SFdiv_core_binary prec emax (Z.pos mx) ex (Z.pos my) ey) as [[q e'] l].
  apply binary_round_aux_signed. assumption.
Qed.

(** Dividing by a positive finite number keeps a lower bound. *)
Lemma sf_lb_div_pos (K : Z) (x : spec_float) (my : positive) (ey : Z) :
  sf_lb K x →
  let k := Z.max (K - (Z.pos (digits2_pos my) + ey) + 1) (SpecFloat.emin prec emax) in
  k ≤ emax - prec →
  sf_lb (k + 1) (SFdiv prec emax x (S754_finite false my ey)).
Proof.
  intros Hx k Hk. destruct x as [s|s| |s m e]; cbn in Hx; try contradiction.
  - exact I.
  - subst s. reflexivity.
  - destruct s.
    + specialize (Hx eq_refl). cbn [SFdiv].
      destruct (SFdiv_core_binary_spec m my e ey) as [Hq Hmag].
      destruct (SFdiv_core_binary prec emax (Z.pos m) e (Z.pos my) ey) as [[q e'] l].
      cbn [fst snd xorb] in *.
      apply (sf_lb_class true (k + 1)); [|lia].
      apply binary_round_aux_loose; [assumption|unfold k; lia|unfold k; lia].
    + apply sf_lb_signed. apply (SFdiv_finite_signed false false).
Qed.

Lemma Zdigits2_mul (a b : positive) :
  Z.pos (digits2_pos (a * b)) ≤ Z.pos (digits2_pos a) + Z.pos (digits2_pos b).
Proof.
  pose proof (digits2_pos_bounds a) as [_ Ha].
  pose proof (digits2_pos_bounds b) as [_ Hb].
  change (Z.pos (digits2_pos (a * b))) with (Zdigits2 (Z.pos (a * b))).
  apply Zdigits2_le; [lia|lia|]. rewrite Z.pow_add_r by lia. nia.
Qed.

(** Multiplying by a positive finite number keeps a lower bound. *)
Lemma sf_lb_mul_pos (K : Z) (x : spec_float) (my : positive) (ey : Z) :
  sf_lb K x →
  let k := K + (Z.pos (digits2_pos my) + ey) in
  SpecFloat.emin prec emax ≤ k ≤ emax - prec →
  sf_lb (k + 1) (SFmul prec emax x (S754_finite false my ey)).
Proof.
  intros Hx k Hk. destruct x as [s|s| |s m e]; cbn in Hx; try contradiction.
  - exact I.
  - subst s. reflexivity.
  - cbn [SFmul]. destruct s; cbn [xorb].
    + specialize (Hx eq_refl).
      apply (sf_lb_class true (k + 1)); [|lia].
      apply binary_round_aux_loose; [lia| |assumption].
      cbn [Zdigits2]. pose proof (Zdigits2_mul m my). unfold k. lia.
    + apply sf_lb_signed, binary_round_aux_signed. lia.
Qed.

Lemma binary_normalize_signed_pos (m : Z) (e : Z) :
  0 ≤ m → sf_signed false (binary_normalize prec emax m e false).
Proof.
  intros Hm. destruct m as [|p|p]; cbn; [reflexivity| |lia].
  apply binary_round_signed.
Qed.

(** Adding two lower-bounded numbers. *)
Lemma sf_lb_add (K : Z) (x y : spec_float) :
  sf_lb K x → sf_lb K y →
  SpecFloat.emin prec emax ≤ K + 1 ≤ emax - prec →
  sf_lb (K + 2) (SFadd prec emax x y).
Proof.
  intros Hx Hy HK.
  destruct x as [sx|sx| |sx mx ex], y as [sy|sy| |sy my ey];
    cbn in Hx, Hy; try contradiction; subst; cbn [SFadd];
    try exact I; try reflexivity.
  - destruct sx, sy; exact I.
  - cbn. intros ->. specialize (Hy eq_refl). lia.
  - cbn. intros ->. specialize (Hx eq_refl). lia.
  - set (ez := Z.min ex ey).
    destruct (shl_align_spec mx ex ez) as [_ Ha].
    destruct (shl_align_spec my ey ez) as [_ Hb].
    rewrite (Z.min_r ex ez) in Ha by (unfold ez; lia).
    rewrite (Z.min_r ey ez) in Hb by (unfold ez; lia).
    set (a := Z.pos (shl_align mx ex ez).1) in *.
    set (b := Z.pos (shl_align my ey ez).1) in *.
    assert (Hda : Zdigits2 a + ez = Z.pos (digits2_pos mx) + ex)
      by (rewrite Ha, Zdigits2_mul_pow2 by (unfold ez; lia); lia).
    assert (Hdb : Zdigits2 b + ez = Z.pos (digits2_pos my) + ey)
      by (rewrite Hb, Zdigits2_mul_pow2 by (unfold ez; lia); lia).
    assert (Hpa : 0 < a) by (unfold a; lia).
    assert (Hpb : 0 < b) by (unfold b; lia).
    pose proof (Zdigits2_lt_pow a ltac:(lia)) as Hla.
    pose proof (Zdigits2_lt_pow b ltac:(lia)) as Hlb.
    pose proof (Zdigits2_nonneg a). pose proof (Zdigits2_nonneg b).
    set (sum := cond_Zopp sx a + cond_Zopp sy b).
    destruct sum as [|p|p] eqn:Hsum; cbn [binary_normalize].
    + exact I.
    + apply sf_lb_signed, binary_round_signed.
    + apply (sf_lb_class true (K + 1 + 1)); [|lia].
      apply binary_round_loose; [|assumption].
      change (Z.pos (digits2_pos p)) with (Zdigits2 (Z.pos p)).
      assert (Zdigits2 (Z.pos p) ≤ K + 1 - ez); [|lia].
      unfold sum in Hsum.
      destruct sx, sy; cbn [cond_Zopp] in Hsum.
      * specialize (Hx eq_refl). specialize (Hy eq_refl).
        assert (Hle : 2 ^ Zdigits2 a ≤ 2 ^ (K - ez) ∧ 2 ^ Zdigits2 b ≤ 2 ^ (K - ez))
          by (split; apply Z.pow_le_mono_r; lia).
        apply Zdigits2_le; [lia|lia|].
        replace (K + 1 - ez) with (1 + (K - ez)) by lia.
        rewrite Z.pow_add_r by lia. change (2 ^ 1) with 2. lia.
      * specialize (Hx eq_refl).
        assert (2 ^ Zdigits2 a ≤ 2 ^ (K + 1 - ez)) by (apply Z.pow_le_mono_r; lia).
        apply Zdigits2_le; [lia|lia|]. lia.
      * specialize (Hy eq_refl).
        assert (2 ^ Zdigits2 b ≤ 2 ^ (K + 1 - ez)) by (apply Z.pow_le_mono_r; lia).
        apply Zdigits2_le; [lia|lia|]. lia.
      * lia.
Qed.

(** The relative change of one price against another is above [-4]. *)
Lemma sf_lb_quotient (mi mj : positive) (ei ej : Z) :
  bounded prec emax mj ej = true →
  sf_lb 2
    (SFdiv prec emax
       (SFsub prec emax (S754_finite false mi ei) (S754_finite false mj ej))
       (S754_finite false mj ej)).
Proof.
  intros Hj. cbn [SFsub cond_Zopp].
  set (ez := Z.min ei ej).
  destruct (shl_align_spec mi ei ez) as [_ Ha].
  destruct (shl_align_spec mj ej ez) as [_ Hb].
  rewrite (Z.min_r ei ez) in Ha by (unfold ez; lia).
  rewrite (Z.min_r ej ez) in Hb by (unfold ez; lia).
  set (a := Z.pos (shl_align mi ei ez).1) in *.
  set (b := Z.pos (shl_align mj ej ez).1) in *.
  assert (Hpa : 0 < a) by (unfold a; lia).
  destruct (a - b) as [|p|p] eqn:Hd; cbn [binary_normalize].
  - exact I.
  - pose proof (binary_round_signed false p ez) as Hs.
    destruct (binary_round prec emax false p ez) as [s|s| |s m e];
      cbn in Hs; try contradiction; subst s.
    + exact I.
    + reflexivity.
    + apply sf_lb_signed. apply (SFdiv_finite_signed false false).
  - assert (Hc : sf_class true (Z.pos (digits2_pos mj) + ej)
                   (binary_round prec emax true p ez)).
    { apply binary_round_below; [assumption|unfold ez; lia|]. lia. }
    destruct Hc as [->|(m & e & -> & Hme)]; [exact I|].
    pose proof (sf_lb_div_pos (Z.pos (digits2_pos mj) + ej)
                  (S754_finite true m e) mj ej (fun _ => Hme)) as H.
    cbn zeta in H.
    replace (Z.pos (digits2_pos mj) + ej - (Z.pos (digits2_pos mj) + ej) + 1)
      with 1 in H by lia.
    apply H. fexp_lia.
Qed.

Lemma SF64mul_one (x : spec_float) :
  valid_binary x = true → SF64mul x (Prim2SF 1) = x.
Proof.
  change (Prim2SF 1) with (S754_finite false 4503599627370496 (-52)).
  destruct x as [s|s| |s m e]; cbn [valid_binary SF64mul SFmul xorb]; intros Hv;
    try (destruct s; reflexivity); try reflexivity.
  apply bounded_inv in Hv as [Hc He].
  unfold binary_round_aux, shr_fexp.
  assert (Hd : Zdigits2 (Z.pos (m * 4503599627370496))
               = Z.pos (digits2_pos m) + 52)
    by (rewrite Pos2Z.inj_mul; apply (Zdigits2_mul_pow2 m 52); lia).
  rewrite Hd.
  replace (Z.pos (digits2_pos m) + 52 + (e + -52))
    with (Z.pos (digits2_pos m) + e) by lia.
  rewrite Hc. replace (e - (e + -52)) with 52 by lia.
  rewrite Pos.mul_comm. cbv [Pos.mul PosDef.Pos.mul]. cbn [shr shr_record_of_loc].
  cbv [SpecFloat.iter_pos shr_1 orb].
  cbn [shr_m loc_of_shr_record round_nearest_even Zdigits2 shr_record_of_loc].
  replace (e + -52 + 52) with e by lia.
  rewrite Hc, Z.sub_diag. cbn [shr shr_m].
  apply Z.leb_le in He. rewrite He. destruct s; reflexivity.
Qed.

Lemma mul_one (x : float) : PrimFloat.mul x 1 = x.
Proof.
  apply Prim2SF_inj. rewrite mul_spec. apply SF64mul_one, Prim2SF_valid.
Qed.


Lemma is_price_inv (c : float) :
  is_price c = true →
  ∃ m e, Prim2SF c = S754_finite false m e ∧ bounded prec emax m e = true.
Proof.
  unfold is_price. rewrite !ltb_spec.
  change (Prim2SF 0) with (S754_zero false).
  change (Prim2SF infinity) with (S754_infinity false).
  pose proof (Prim2SF_valid c) as Hv. unfold SFltb.
  destruct (Prim2SF c) as [s|s| |s m e]; cbn; try discriminate.
  - destruct s; discriminate.
  - destruct s; [discriminate|]. intros _. eauto.
Qed.

Lemma sf_lb_notna (K : Z) (x : float) : sf_lb K (Prim2SF x) → isna x = false.
Proof.
  intros H. apply isna_false. intros E. rewrite E in H. exact H.
Qed.

(** The growth of one price over another is never NaN and stays above
    [-2^10]. *)
Lemma growth_of_lb (c base : float) :
  is_price c = true → is_price base = true →
  sf_lb 10 (Prim2SF (growth_of c base)).
Proof.
  intros (mi & ei & Hi & _)%is_price_inv (mj & ej & Hj & Hbj)%is_price_inv.
  unfold growth_of. rewrite mul_spec, div_spec, sub_spec, Hi, Hj.
  change (Prim2SF 100) with (S754_finite false 7036874417766400 (-46)).
  apply (sf_lb_mul_pos 2 _ 7036874417766400 (-46)).
  - apply sf_lb_quotient. assumption.
  - cbn. fexp_lia.
Qed.

Lemma third_lb (K : Z) (g : float) :
  SpecFloat.emin prec emax < K ≤ emax - prec →
  sf_lb K (Prim2SF g) →
  sf_lb K (Prim2SF (PrimFloat.div (PrimFloat.mul g 1) 3)).
Proof.
  intros HK Hg. rewrite mul_one, div_spec.
  change (Prim2SF 3) with (S754_finite false 6755399441055744 (-51)).
  pose proof (sf_lb_div_pos K _ 6755399441055744 (-51) Hg) as H.
  cbn zeta in H. change (Z.pos (digits2_pos 6755399441055744) + -51) with 2 in H.
  rewrite Z.max_l in H by lia.
  replace (K - 2 + 1 + 1) with K in H by lia. apply H. lia.
Qed.

Lemma velocity_of_lb (x y z : float) :
  sf_lb 10 (Prim2SF x) → sf_lb 10 (Prim2SF y) → sf_lb 10 (Prim2SF z) →
  sf_lb 14 (Prim2SF (velocity_of x y z)).
Proof.
  intros Hx Hy Hz. unfold velocity_of. rewrite !add_spec.
  apply (sf_lb_add 12); [| |fexp_lia].
  - apply (sf_lb_add 10); [apply third_lb|apply third_lb|]; try assumption;
      fexp_lia.
  - apply (sf_lb_mono 10); [|lia]. apply third_lb; [fexp_lia|assumption].
Qed.

Lemma velocity_of_thirds (x y z : float) :
  velocity_of x y z
  = PrimFloat.add (PrimFloat.add (PrimFloat.div x 3) (PrimFloat.div y 3))
                  (PrimFloat.div z 3).
Proof. unfold velocity_of. rewrite !mul_one. reflexivity. Qed.

Lemma SFadd_nan_r (x : spec_float) : SFadd prec emax x S754_nan = S754_nan.
Proof. destruct x; reflexivity. Qed.

Lemma velocity_of_nan (x y z : float) :
  isna x = true ∨ isna y = true ∨ isna z = true →
  isna (velocity_of x y z) = true.
Proof.
  rewrite !isna_true, velocity_of_thirds, !add_spec, !div_spec.
  unfold SF64add, SF64div.
  intros [->|[->| ->]]; cbn [SFdiv SFadd]; rewrite ?SFadd_nan_r; reflexivity.
Qed.


End Rounding.

(** * The zone classifier *)

Section Classifier.

Lemma recommendation_inj (z z' : Zone) :
  recommendation z = recommendation z' → z = z'.
Proof. destruct z, z'; simpl; intros H; (reflexivity || discriminate H). Qed.

(** The classifier follows the zone predicates, tested top to bottom. *)
Lemma get_trading_recommendation_zone (v : float) (z : Zone) :
  zone_holds z v = true →
  (∀ z', zone_holds z' v = true → z' = z) →
  get_trading_recommendation v = Some (recommendation z).
Proof.
  intros Hz Huniq. unfold get_trading_recommendation.
  destruct (PrimFloat.ltb 150 v) eqn:E1.
  { rewrite <- (Huniq Bubble E1). reflexivity. }
  destruct (PrimFloat.ltb 100 v && PrimFloat.leb v 150) eqn:E2.
  { rewrite <- (Huniq Overheated E2). reflexivity. }
  destruct (PrimFloat.ltb 50 v && PrimFloat.leb v 100) eqn:E3.
  { rewrite <- (Huniq Normal E3). reflexivity. }
  destruct (PrimFloat.ltb 0 v && PrimFloat.leb v 50) eqn:E4.
  { rewrite <- (Huniq Slow E4). reflexivity. }
  destruct (PrimFloat.leb v 0) eqn:E5.
  { rewrite <- (Huniq Retreat E5). reflexivity. }
  destruct z; simpl in Hz; congruence.
Qed.

(** C4. On every float that is a number (every real input, and the two
    infinities as well), exactly one of the five zone conditions holds,
    and the classifier returns that zone's recommendation: the fall-through
    result [None] cannot occur. *)
Theorem classifier_total (v : float) :
  isna v = false →
  ∃ z, zone_holds z v = true
       ∧ (∀ z', zone_holds z' v = true → z' = z)
       ∧ get_trading_recommendation v = Some (recommendation z).
Proof.
  intros Hv.
  assert (H150 := ltb_negb_leb 150 v eq_refl Hv).
  assert (H100 := ltb_negb_leb 100 v eq_refl Hv).
  assert (H50 := ltb_negb_leb 50 v eq_refl Hv).
  assert (H0 := ltb_negb_leb 0 v eq_refl Hv).
  assert (T1 : PrimFloat.ltb 150 v = true → PrimFloat.ltb 100 v = true)
    by (apply ltb_trans; reflexivity).
  assert (T2 : PrimFloat.ltb 100 v = true → PrimFloat.ltb 50 v = true)
    by (apply ltb_trans; reflexivity).
  assert (T3 : PrimFloat.ltb 50 v = true → PrimFloat.ltb 0 v = true)
    by (apply ltb_trans; reflexivity).
  assert (∃ z, zone_holds z v = true ∧ ∀ z', zone_holds z' v = true → z' = z)
    as (z & Hz & Huniq).
  { destruct (PrimFloat.ltb 150 v) eqn:E150;
      [ specialize (T1 eq_refl) | clear T1 ];
      (destruct (PrimFloat.ltb 100 v) eqn:E100;
        [ specialize (T2 eq_refl) | clear T2 ]);
      (destruct (PrimFloat.ltb 50 v) eqn:E50;
        [ specialize (T3 eq_refl) | clear T3 ]);
      destruct (PrimFloat.ltb 0 v) eqn:E0;
      destruct (PrimFloat.leb v 150) eqn:L150; try discriminate;
      destruct (PrimFloat.leb v 100) eqn:L100; try discriminate;
      destruct (PrimFloat.leb v 50) eqn:L50; try discriminate;
      destruct (PrimFloat.leb v 0) eqn:L0; try discriminate.
    all: first
      [ exists Bubble; split;
          [ simpl; rewrite ?E150, ?E100, ?E50, ?E0, ?L150, ?L100, ?L50, ?L0; reflexivity
          | intros [] Hz'; simpl in Hz';
            rewrite ?E150, ?E100, ?E50, ?E0, ?L150, ?L100, ?L50, ?L0 in Hz';
            (reflexivity || discriminate Hz') ]
      | exists Overheated; split;
          [ simpl; rewrite ?E150, ?E100, ?E50, ?E0, ?L150, ?L100, ?L50, ?L0; reflexivity
          | intros [] Hz'; simpl in Hz';
            rewrite ?E150, ?E100, ?E50, ?E0, ?L150, ?L100, ?L50, ?L0 in Hz';
            (reflexivity || discriminate Hz') ]
      | exists Normal; split;
          [ simpl; rewrite ?E150, ?E100, ?E50, ?E0, ?L150, ?L100, ?L50, ?L0; reflexivity
          | intros [] Hz'; simpl in Hz';
            rewrite ?E150, ?E100, ?E50, ?E0, ?L150, ?L100, ?L50, ?L0 in Hz';
            (reflexivity || discriminate Hz') ]
      | exists Slow; split;
          [ simpl; rewrite ?E150, ?E100, ?E50, ?E0, ?L150, ?L100, ?L50, ?L0; reflexivity
          | intros [] Hz'; simpl in Hz';
            rewrite ?E150, ?E100, ?E50, ?E0, ?L150, ?L100, ?L50, ?L0 in Hz';
            (reflexivity || discriminate Hz') ]
      | exists Retreat; split;
          [ simpl; rewrite ?E150, ?E100, ?E50, ?E0, ?L150, ?L100, ?L50, ?L0; reflexivity
          | intros [] Hz'; simpl in Hz';
            rewrite ?E150, ?E100, ?E50, ?E0, ?L150, ?L100, ?L50, ?L0 in Hz';
            (reflexivity || discriminate Hz') ] ]. }
  exists z. split; [exact Hz | split; [exact Huniq |]].
  apply get_trading_recommendation_zone; assumption.
Qed.

End Classifier.

(** * Series *)

Section SeriesFacts.

Lemma shift_length (n : nat) (s : Series) : length (Series.shift n s) = length s.
Proof.
  unfold Series.shift. rewrite length_take, length_app, length_replicate. lia.
Qed.

Lemma shift_lookup_lt (n i : nat) (s : Series) :
  i < n → i < length s → Series.shift n s !! i = Some F64.nan.
Proof.
  intros Hn Hs. unfold Series.shift.
  rewrite lookup_take_lt by lia.
  rewrite lookup_app_l by (rewrite length_replicate; lia).
  apply lookup_replicate_2. lia.
Qed.

Lemma shift_lookup_ge (n i : nat) (s : Series) :
  n ≤ i → i < length s → Series.shift n s !! i = s !! (i - n).
Proof.
  intros Hn Hs. unfold Series.shift.
  rewrite lookup_take_lt by lia.
  rewrite lookup_app_r by (rewrite length_replicate; lia).
  rewrite length_replicate. reflexivity.
Qed.

Lemma growth_series_length (close : Series) (n : nat) :
  length (growth_series close n) = length close.
Proof.
  unfold growth_series, Series.mul_scalar, Series.div, Series.sub.
  rewrite length_fmap, !length_zip_with, shift_length. lia.
Qed.

Lemma growth_series_lookup (close : Series) (n i : nat) (ci b : float) :
  close !! i = Some ci → Series.shift n close !! i = Some b →
  growth_series close n !! i
  = Some (PrimFloat.mul (PrimFloat.div (PrimFloat.sub ci b) b) 100).
Proof.
  intros Hi Hb. unfold growth_series, Series.mul_scalar, Series.div, Series.sub.
  rewrite list_lookup_fmap, !lookup_zip_with, Hi, Hb. reflexivity.
Qed.

Lemma velocity_series_length (a b c : Series) :
  length a = length b → length b = length c →
  length (velocity_series a b c) = length a.
Proof.
  intros Hab Hbc.
  unfold velocity_series, Series.add, Series.div_scalar, Series.mul_scalar.
  rewrite !length_zip_with, !length_fmap. lia.
Qed.

Lemma velocity_series_lookup (a b c : Series) (i : nat) (x y z : float) :
  a !! i = Some x → b !! i = Some y → c !! i = Some z →
  velocity_series a b c !! i = Some (velocity_of x y z).
Proof.
  intros Ha Hb Hc.
  unfold velocity_series, Series.add, Series.div_scalar, Series.mul_scalar.
  rewrite !lookup_zip_with, !list_lookup_fmap, Ha, Hb, Hc. reflexivity.
Qed.

End SeriesFacts.

(** * calculate_velocity *)

Section CalculateVelocity.

(** Reads a column of a frame built by inserts. *)
Ltac lookup_column :=
  unfold annotated; cbn [columns Date];
  repeat first [ rewrite lookup_insert_eq
               | rewrite lookup_insert_ne by discriminate ];
  try reflexivity.

Lemma calculate_velocity_Ok (data : DataFrame) (close : Series) :
  columns data !! "Close" = Some close →
  calculate_velocity data = Ok (annotated data close).
Proof.
  intros Hc. unfold calculate_velocity, growth, getitem, setitem, annotated.
  cbn [columns Date rbind].
  repeat (rewrite ?lookup_insert_eq, ?Hc;
          try (rewrite lookup_insert_ne by discriminate);
          cbn [columns Date rbind]).
  reflexivity.
Qed.

Lemma calculate_velocity_KeyError (data : DataFrame) :
  columns data !! "Close" = None →
  calculate_velocity data = Raise (KeyError "Close").
Proof.
  intros Hc. unfold calculate_velocity, growth, getitem. rewrite Hc. reflexivity.
Qed.

Lemma calculate_velocity_inv (data data' : DataFrame) :
  calculate_velocity data = Ok data' →
  ∃ close, columns data !! "Close" = Some close ∧ data' = annotated data close.
Proof.
  destruct (columns data !! "Close") as [close|] eqn:Hc.
  - rewrite (calculate_velocity_Ok _ _ Hc). intros [= <-]. eauto.
  - rewrite (calculate_velocity_KeyError _ Hc). discriminate.
Qed.

Lemma annotated_lookup_other (data : DataFrame) (close : Series) (name : string) :
  name ∉ derived_columns →
  columns (annotated data close) !! name = columns data !! name.
Proof.
  intros Hn. unfold annotated, derived_columns in *. cbn [columns].
  rewrite !lookup_insert_ne; [reflexivity | | | |];
    intros <-; apply Hn; repeat constructor.
Qed.

Lemma annotated_lookup_growth (data : DataFrame) (close : Series)
      (W : nat) (name : string) :
  (W, name) ∈ windows →
  columns (annotated data close) !! name = Some (growth_series close W).
Proof.
  unfold windows. rewrite !elem_of_cons, elem_of_nil.
  intros [[= -> ->]|[[= -> ->]|[[= -> ->]|[]]]]; lookup_column.
Qed.

Lemma annotated_lookup_velocity (data : DataFrame) (close : Series) :
  columns (annotated data close) !! "Velocity"
  = Some (velocity_series (growth_series close 240) (growth_series close 480)
                          (growth_series close 1200)).
Proof. lookup_column. Qed.

(** C1. For each window W of 240, 480 and 1200 rows, the growth column
    that [calculate_velocity] writes has one entry per close, which is
    [(close[i] - close[i-W]) / close[i-W] * 100] (in float64 arithmetic) at
    every row [i >= W], and NaN at every row [i < W]. *)
Theorem growth_column_spec (data : DataFrame) (close : Series)
        (W : nat) (name : string) :
  (W, name) ∈ windows →
  columns data !! "Close" = Some close →
  ∃ data' g,
    calculate_velocity data = Ok data'
    ∧ columns data' !! name = Some g
    ∧ length g = length close
    ∧ ∀ i, i < length close →
        (W ≤ i →
         ∃ ci cj, close !! i = Some ci ∧ close !! (i - W) = Some cj
           ∧ g !! i = Some (PrimFloat.mul
                              (PrimFloat.div (PrimFloat.sub ci cj) cj) 100))
        ∧ (i < W → g !! i = Some F64.nan).
Proof.
  intros HW Hc. exists (annotated data close), (growth_series close W).
  split; [apply calculate_velocity_Ok, Hc|].
  split; [apply annotated_lookup_growth, HW|].
  split; [apply growth_series_length|].
  intros i Hi. destruct (lookup_lt_is_Some_2 close i Hi) as [ci Hci]. split.
  - intros Hge.
    destruct (lookup_lt_is_Some_2 close (i - W) ltac:(lia)) as [cj Hcj].
    exists ci, cj. split; [exact Hci|]. split; [exact Hcj|].
    apply growth_series_lookup; [exact Hci|].
    rewrite shift_lookup_ge by lia. exact Hcj.
  - intros Hlt.
    rewrite (growth_series_lookup close W i ci F64.nan Hci)
      by (apply shift_lookup_lt; lia).
    f_equal. apply Prim2SF_inj.
    rewrite mul_spec, div_spec, sub_spec.
    change (Prim2SF F64.nan) with S754_nan.
    destruct (Prim2SF ci); reflexivity.
Qed.

(** C9. [calculate_velocity] keeps the dates, the closes and every other
    column that was in the frame as they were; what it changes is the four
    columns it writes, which are present afterwards. *)
Theorem calculate_velocity_frame (data data' : DataFrame) :
  calculate_velocity data = Ok data' →
  Date data' = Date data
  ∧ columns data' !! "Close" = columns data !! "Close"
  ∧ (∀ name, name ∉ derived_columns →
       columns data' !! name = columns data !! name)
  ∧ (∀ name, name ∈ derived_columns → is_Some (columns data' !! name)).
Proof.
  intros (close & Hc & ->)%calculate_velocity_inv.
  split; [reflexivity|].
  split; [apply annotated_lookup_other; unfold derived_columns;
          rewrite !elem_of_cons, elem_of_nil;
          intros [|[|[|[|[]]]]]; discriminate|].
  split; [intros name; apply annotated_lookup_other|].
  intros name. unfold derived_columns. rewrite !elem_of_cons, elem_of_nil.
  intros [->|[->|[->|[->|[]]]]]; eexists; lookup_column.
Qed.

End CalculateVelocity.

(** * dropna and the last row *)

Section Dropna.

Lemma notna_row_spec (data : DataFrame) (i : nat) :
  notna_row data i = true ↔
  ∀ name col x, columns data !! name = Some col → col !! i = Some x →
                F64.isna x = false.
Proof.
  unfold notna_row. rewrite forallb_forall. split.
  - intros H name col x Hc Hx.
    specialize (H (name, col)).
    rewrite <- list_elem_of_In, elem_of_map_to_list in H.
    specialize (H Hc). cbn in H. rewrite Hx in H.
    destruct (F64.isna x); [discriminate H | reflexivity].
  - intros H [name col] Hin.
    apply list_elem_of_In, elem_of_map_to_list in Hin. cbn.
    destruct (col !! i) as [x|] eqn:Hx; [|reflexivity].
    rewrite (H name col x Hin Hx). reflexivity.
Qed.

(** One NaN in a row is enough to drop it. *)
Lemma notna_row_false (data : DataFrame) (i : nat) (name : string)
      (col : Series) (x : float) :
  columns data !! name = Some col → col !! i = Some x → F64.isna x = true →
  notna_row data i = false.
Proof.
  intros Hc Hx Hna. destruct (notna_row data i) eqn:E; [|reflexivity].
  rewrite notna_row_spec in E. rewrite (E name col x Hc Hx) in Hna.
  discriminate Hna.
Qed.

Lemma fmap_seq_false (f : nat → bool) (n s : nat) :
  (∀ i, s ≤ i < s + n → f i = false) → f <$> seq s n = replicate n false.
Proof.
  revert s. induction n as [|n IH]; intros s H; [reflexivity|].
  cbn. rewrite (H s) by lia. f_equal. apply IH. intros i Hi. apply H. lia.
Qed.

Lemma select_rows_none {A} (n : nat) (l : list A) :
  select_rows (replicate n false) l = [].
Proof.
  revert l. induction n as [|n IH]; intros [|x l]; cbn; auto.
Qed.

Lemma select_rows_last_only {A} (n : nat) (l : list A) (x : A) :
  length l = S n → l !! n = Some x →
  select_rows (replicate n false ++ [true]) l = [x].
Proof.
  revert l. induction n as [|n IH]; intros [|y l] Hlen Hx; try discriminate.
  - cbn in *. destruct l; [|discriminate]. congruence.
  - cbn. apply IH; [cbn in Hlen; lia | exact Hx].
Qed.

(** When every row holds a NaN, nothing is left. *)
Lemma dropna_all (data : DataFrame) :
  (∀ i, i < length (Date data) → notna_row data i = false) →
  Date (dropna data) = []
  ∧ ∀ name col, columns (dropna data) !! name = Some col → col = [].
Proof.
  intros H. unfold dropna. cbn [Date columns].
  rewrite fmap_seq_false by (intros i Hi; apply H; lia).
  split; [apply select_rows_none|].
  intros name col. rewrite lookup_fmap.
  destruct (columns data !! name); [|discriminate].
  cbn. intros [= <-]. apply select_rows_none.
Qed.

(** When the last row is the only one without a NaN, it is what is left. *)
Lemma dropna_last_only (data : DataFrame) (n : nat) :
  wf_frame data →
  length (Date data) = S n →
  (∀ i, i < n → notna_row data i = false) →
  notna_row data n = true →
  (∀ d, Date data !! n = Some d → Date (dropna data) = [d])
  ∧ ∀ name col x, columns data !! name = Some col → col !! n = Some x →
                  columns (dropna data) !! name = Some [x].
Proof.
  intros Hwf Hlen Hlt Hn. unfold dropna. cbn [Date columns].
  rewrite Hlen, seq_S, fmap_app. cbn [fmap list_fmap Nat.add].
  rewrite fmap_seq_false by (intros i Hi; apply Hlt; lia).
  rewrite Hn. split.
  - intros d Hd. apply select_rows_last_only; assumption.
  - intros name col x Hc Hx. rewrite lookup_fmap, Hc. cbn. f_equal.
    apply select_rows_last_only; [|exact Hx].
    rewrite (Hwf name col Hc). exact Hlen.
Qed.

Lemma iloc_last_empty (data : DataFrame) :
  Date data = [] → iloc_last data = Raise IndexError.
Proof. unfold iloc_last. intros ->. reflexivity. Qed.

Lemma annotated_wf (data : DataFrame) (close : Series) :
  wf_frame data → columns data !! "Close" = Some close →
  wf_frame (annotated data close).
Proof.
  intros Hwf Hc name col.
  pose proof (Hwf _ _ Hc) as Hlen.
  destruct (decide (name ∈ derived_columns)) as [Hin|Hnin].
  - unfold derived_columns in Hin. rewrite !elem_of_cons, elem_of_nil in Hin.
    unfold annotated. cbn [columns Date].
    destruct Hin as [->|[->|[->|[->|[]]]]];
      repeat first [ rewrite lookup_insert_eq
                   | rewrite lookup_insert_ne by discriminate ];
      intros [= <-];
      rewrite ?velocity_series_length, ?growth_series_length;
      rewrite ?growth_series_length; auto.
  - rewrite annotated_lookup_other by exact Hnin. apply Hwf.
Qed.

(** Before row 1200 the 1200-row growth is NaN, so the row is dropped. *)
Lemma annotated_row_dropped (data : DataFrame) (close : Series) (i : nat) :
  i < 1200 → i < length close →
  notna_row (annotated data close) i = false.
Proof.
  intros Hi Hlen.
  destruct (lookup_lt_is_Some_2 close i Hlen) as [ci Hci].
  apply (notna_row_false _ i "1200d Growth" (growth_series close 1200)
           (PrimFloat.mul (PrimFloat.div (PrimFloat.sub ci F64.nan) F64.nan) 100)).
  - apply (annotated_lookup_growth data close 1200). unfold windows.
    rewrite !elem_of_cons. auto.
  - apply growth_series_lookup; [exact Hci|]. apply shift_lookup_lt; lia.
  - apply isna_true. rewrite mul_spec, div_spec, sub_spec.
    change (Prim2SF F64.nan) with S754_nan.
    destruct (Prim2SF ci); reflexivity.
Qed.

(** C5. A well-formed frame with a ['Close'] column and fewer than 1200
    rows (1199, say) is emptied by the NaN filter, and taking its last row
    raises: the script yields an error, neither a latest row nor a
    recommendation. The exception is Python's IndexError, raised by
    [iloc[-1]] on the empty frame. *)
Theorem insufficient_history (data : DataFrame) :
  wf_frame data →
  is_Some (columns data !! "Close") →
  length (Date data) < 1200 →
  ∃ filtered,
    velocity_data data = Ok filtered
    ∧ Date filtered = []
    ∧ (∀ name col, columns filtered !! name = Some col → col = [])
    ∧ latest_data data = Raise IndexError
    ∧ current_recommendation data = Raise IndexError.
Proof.
  intros Hwf [close Hc] Hlen.
  pose proof (Hwf _ _ Hc) as Hclose.
  assert (Hall : ∀ i, i < length (Date (annotated data close)) →
                      notna_row (annotated data close) i = false).
  { intros i Hi. cbn [annotated Date] in Hi.
    apply annotated_row_dropped; lia. }
  destruct (dropna_all _ Hall) as [HD Hcols].
  exists (dropna (annotated data close)).
  unfold current_recommendation, latest_data, velocity_data.
  rewrite (calculate_velocity_Ok _ _ Hc). cbn [rbind].
  rewrite (iloc_last_empty _ HD). auto.
Qed.

End Dropna.

(** * Scenarios *)

Section Scenarios.
Import F64.

Lemma growth_series_lookup_ge (close : Series) (n i : nat) (ci cj : float) :
  n ≤ i → close !! i = Some ci → close !! (i - n) = Some cj →
  growth_series close n !! i = Some (growth_of ci cj).
Proof.
  intros Hn Hi Hj. apply growth_series_lookup; [exact Hi|].
  rewrite shift_lookup_ge; [exact Hj | exact Hn |].
  apply lookup_lt_is_Some_1. eauto.
Qed.

Lemma price_frame_wf (close : Series) : wf_frame (price_frame close).
Proof.
  intros name col. unfold price_frame. cbn [columns Date].
  rewrite lookup_singleton_Some. intros [_ <-].
  rewrite length_fmap, length_seq. reflexivity.
Qed.

(** The row that [iloc[-1]] reads from a one-row frame. *)
Lemma iloc_last_single (data : DataFrame) (d : Z) :
  Date data = [d] →
  ∃ r, iloc_last data = Ok r ∧ row_Date r = d
       ∧ ∀ name x, columns data !! name = Some [x] →
                   row_values r !! name = Some x.
Proof.
  intros HD. unfold iloc_last. rewrite HD. cbn.
  eexists. split; [reflexivity|]. split; [reflexivity|].
  intros name x Hx. cbn. rewrite lookup_omap, Hx. reflexivity.
Qed.

(** C7. In a frame of 1201 rows whose closes are 300 at row 1200, 200 at
    row 960, 250 at row 720 and 100 at row 0 (whatever the other closes,
    the fetched columns holding no NaN in row 1200), row 1200 is the one row
    that survives the filter; its growth rates are 50, 20 and 200, its
    velocity is 90, and the recommendation is that of the Normal zone. *)
Theorem scenario_C (data : DataFrame) (close : Series) :
  wf_frame data →
  length (Date data) = 1201 →
  columns data !! "Close" = Some close →
  close !! 1200 = Some 300%float →
  close !! 960 = Some 200%float →
  close !! 720 = Some 250%float →
  close !! 0 = Some 100%float →
  (∀ name col, name ∉ derived_columns → columns data !! name = Some col →
     ∃ x, col !! 1200 = Some x ∧ isna x = false) →
  ∃ filtered latest,
    velocity_data data = Ok filtered
    ∧ length (Date filtered) = 1
    ∧ columns filtered !! "240d Growth" = Some [50%float]
    ∧ columns filtered !! "480d Growth" = Some [20%float]
    ∧ columns filtered !! "1200d Growth" = Some [200%float]
    ∧ columns filtered !! "Velocity" = Some [90%float]
    ∧ latest_data data = Ok latest
    ∧ row_values latest !! "240d Growth" = Some 50%float
    ∧ row_values latest !! "480d Growth" = Some 20%float
    ∧ row_values latest !! "1200d Growth" = Some 200%float
    ∧ row_values latest !! "Velocity" = Some 90%float
    ∧ current_recommendation data = Ok (Some (recommendation Normal)).
Proof.
  intros Hwf Hlen Hc H1200 H960 H720 H0 Hother.
  set (a := annotated data close).
  assert (Ha : wf_frame a) by (apply annotated_wf; assumption).
  assert (Hla : length (Date a) = S 1200) by exact Hlen.
  assert (G240 : columns a !! "240d Growth" = Some (growth_series close 240))
    by (apply (annotated_lookup_growth data close 240); unfold windows;
        rewrite !elem_of_cons; auto).
  assert (G480 : columns a !! "480d Growth" = Some (growth_series close 480))
    by (apply (annotated_lookup_growth data close 480); unfold windows;
        rewrite !elem_of_cons; auto).
  assert (G1200 : columns a !! "1200d Growth" = Some (growth_series close 1200))
    by (apply (annotated_lookup_growth data close 1200); unfold windows;
        rewrite !elem_of_cons; auto).
  pose proof (annotated_lookup_velocity data close) as GV. fold a in GV.
  assert (V240 : growth_series close 240 !! 1200 = Some 50%float)
    by (apply (growth_series_lookup_ge close 240 1200 _ _ ltac:(lia) H1200 H960)).
  assert (V480 : growth_series close 480 !! 1200 = Some 20%float)
    by (apply (growth_series_lookup_ge close 480 1200 _ _ ltac:(lia) H1200 H720)).
  assert (V1200 : growth_series close 1200 !! 1200 = Some 200%float)
    by (apply (growth_series_lookup_ge close 1200 1200 _ _ ltac:(lia) H1200 H0)).
  pose proof (velocity_series_lookup _ _ _ 1200 _ _ _ V240 V480 V1200) as VV.
  change (velocity_of 50 20 200) with 90%float in VV.
  assert (Hdrop : ∀ i, i < 1200 → notna_row a i = false).
  { intros i Hi. apply annotated_row_dropped; [exact Hi|].
    rewrite (Hwf _ _ Hc). lia. }
  assert (Hkeep : notna_row a 1200 = true).
  { apply notna_row_spec. intros name col x Hcol Hx.
    destruct (decide (name ∈ derived_columns)) as [Hin|Hnin].
    - unfold derived_columns in Hin. rewrite !elem_of_cons, elem_of_nil in Hin.
      destruct Hin as [->|[->|[->|[->|[]]]]];
        rewrite ?G240, ?G480, ?G1200, ?GV in Hcol;
        injection Hcol as <-;
        rewrite ?V240, ?V480, ?V1200, ?VV in Hx;
        injection Hx as <-; reflexivity.
    - unfold a in Hcol. rewrite annotated_lookup_other in Hcol by exact Hnin.
      destruct (Hother name col Hnin Hcol) as (y & Hy & Hna). congruence. }
  destruct (dropna_last_only a 1200 Ha Hla Hdrop Hkeep) as [HD Hcols].
  destruct (lookup_lt_is_Some_2 (Date a) 1200 ltac:(lia)) as [d Hd].
  specialize (HD d Hd).
  destruct (iloc_last_single (dropna a) d HD) as (r & Hr & _ & Hrow).
  exists (dropna a), r.
  unfold current_recommendation, latest_data, velocity_data.
  rewrite (calculate_velocity_Ok _ _ Hc). fold a. cbn [rbind]. rewrite Hr.
  pose proof (Hcols _ _ _ G240 V240) as F240.
  pose proof (Hcols _ _ _ G480 V480) as F480.
  pose proof (Hcols _ _ _ G1200 V1200) as F1200.
  pose proof (Hcols _ _ _ GV VV) as FV.
  cbn [rbind]. unfold row_getitem. rewrite (Hrow _ _ FV).
  rewrite HD. repeat split; auto.
Qed.

(** The scenario on a frame that holds the series alone. *)
Lemma scenario_C_holds :
  let data := price_frame scenario_C_close in
  (wf_frame data
   ∧ length (Date data) = 1201
   ∧ columns data !! "Close" = Some scenario_C_close
   ∧ scenario_C_close !! 1200 = Some 300%float
   ∧ scenario_C_close !! 960 = Some 200%float
   ∧ scenario_C_close !! 720 = Some 250%float
   ∧ scenario_C_close !! 0 = Some 100%float)
  ∧ ∃ filtered latest,
      velocity_data data = Ok filtered
      ∧ length (Date filtered) = 1
      ∧ columns filtered !! "240d Growth" = Some [50%float]
      ∧ columns filtered !! "480d Growth" = Some [20%float]
      ∧ columns filtered !! "1200d Growth" = Some [200%float]
      ∧ columns filtered !! "Velocity" = Some [90%float]
      ∧ latest_data data = Ok latest
      ∧ row_values latest !! "240d Growth" = Some 50%float
      ∧ row_values latest !! "480d Growth" = Some 20%float
      ∧ row_values latest !! "1200d Growth" = Some 200%float
      ∧ row_values latest !! "Velocity" = Some 90%float
      ∧ current_recommendation data = Ok (Some (recommendation Normal)).
Proof.
  assert (Hwf : wf_frame (price_frame scenario_C_close))
    by apply price_frame_wf.
  assert (Hlen : length (Date (price_frame scenario_C_close)) = 1201)
    by (vm_compute; reflexivity).
  assert (Hc : columns (price_frame scenario_C_close) !! "Close"
               = Some scenario_C_close) by apply lookup_singleton_eq.
  assert (H1200 : scenario_C_close !! 1200 = Some 300%float)
    by (vm_compute; reflexivity).
  assert (H960 : scenario_C_close !! 960 = Some 200%float)
    by (vm_compute; reflexivity).
  assert (H720 : scenario_C_close !! 720 = Some 250%float)
    by (vm_compute; reflexivity).
  assert (H0 : scenario_C_close !! 0 = Some 100%float)
    by (vm_compute; reflexivity).
  split; [auto 10|].
  apply (scenario_C (price_frame scenario_C_close) scenario_C_close
           Hwf Hlen Hc H1200 H960 H720 H0).
  intros name col _ Hcol. unfold price_frame in Hcol. cbn [columns] in Hcol.
  apply lookup_singleton_Some in Hcol as [<- <-].
  exists 300%float. split; [exact H1200 | reflexivity].
Defined.

(** A 1199-row frame: the filter leaves nothing and the last row raises. *)
Lemma insufficient_history_1199 :
  let data := price_frame short_close in
  (wf_frame data
   ∧ is_Some (columns data !! "Close")
   ∧ length (Date data) = 1199)
  ∧ ∃ filtered,
      velocity_data data = Ok filtered
      ∧ Date filtered = []
      ∧ (∀ name col, columns filtered !! name = Some col → col = [])
      ∧ latest_data data = Raise IndexError
      ∧ current_recommendation data = Raise IndexError.
Proof.
  assert (Hwf : wf_frame (price_frame short_close)) by apply price_frame_wf.
  assert (Hc : is_Some (columns (price_frame short_close) !! "Close"))
    by (exists short_close; apply lookup_singleton_eq).
  assert (Hlen : length (Date (price_frame short_close)) = 1199)
    by (vm_compute; reflexivity).
  split; [auto|].
  apply (insufficient_history (price_frame short_close) Hwf Hc).
  rewrite Hlen. lia.
Defined.

End Scenarios.

(** * Boundaries of the zones, NaN, and a zero base *)

Section Boundaries.
Import F64.

(** C3 (as the code has it). Each threshold belongs to the zone below it:
    150 is Overheated, 100 is Normal, 50 is Slow and 0 is Retreat; every
    velocity above 150, such as 150.0000001, is Bubble. *)
Theorem classifier_boundaries :
  get_trading_recommendation 150 = Some (recommendation Overheated)
  ∧ get_trading_recommendation 100 = Some (recommendation Normal)
  ∧ get_trading_recommendation 50 = Some (recommendation Slow)
  ∧ get_trading_recommendation 0 = Some (recommendation Retreat)
  ∧ get_trading_recommendation 0x1.2c0000035afe5p+7
    = Some (recommendation Bubble)
  ∧ ∀ v, PrimFloat.ltb 150 v = true →
         get_trading_recommendation v = Some (recommendation Bubble).
Proof.
  repeat split; try reflexivity.
  intros v Hv. unfold get_trading_recommendation. rewrite Hv. reflexivity.
Qed.

Lemma classifier_boundaries_200 :
  PrimFloat.ltb 150 200 = true
  ∧ get_trading_recommendation 200 = Some (recommendation Bubble).
Proof.
  split; [reflexivity|].
  apply classifier_boundaries. reflexivity.
Defined.

(** At 100 the classifier answers Normal, not Overheated, and at 50 it
    answers Slow, not Normal. *)
Lemma classifier_100_is_Normal :
  get_trading_recommendation 100 = Some (recommendation Normal)
  ∧ get_trading_recommendation 100 ≠ Some (recommendation Overheated)
  ∧ get_trading_recommendation 50 = Some (recommendation Slow)
  ∧ get_trading_recommendation 50 ≠ Some (recommendation Normal).
Proof.
  split; [reflexivity|]. split; [discriminate|].
  split; [reflexivity|]. discriminate.
Qed.

Lemma classifier_total_90 :
  isna 90 = false
  ∧ ∃ z, zone_holds z 90 = true
         ∧ (∀ z', zone_holds z' 90 = true → z' = z)
         ∧ get_trading_recommendation 90 = Some (recommendation z).
Proof.
  split; [reflexivity|].
  apply (classifier_total 90). reflexivity.
Defined.

(** C10. On NaN every comparison of the chain is false: the classifier
    falls through and returns [None], no zone and no error. *)
Theorem classifier_nan (v : float) :
  isna v = true → get_trading_recommendation v = None.
Proof.
  intros Hv. unfold get_trading_recommendation.
  rewrite !(ltb_nan_r _ v Hv), !(leb_nan_l _ v Hv). reflexivity.
Qed.

Lemma classifier_nan_holds :
  isna nan = true ∧ get_trading_recommendation nan = None.
Proof.
  split; [reflexivity|].
  apply (classifier_nan nan). reflexivity.
Defined.


Lemma growth_column_spec_240 :
  ((240, "240d Growth") ∈ windows
   ∧ columns (price_frame scenario_C_close) !! "Close" = Some scenario_C_close)
  ∧ ∃ data' g,
      calculate_velocity (price_frame scenario_C_close) = Ok data'
      ∧ columns data' !! "240d Growth" = Some g
      ∧ length g = length scenario_C_close
      ∧ ∀ i, i < length scenario_C_close →
          (240 ≤ i →
           ∃ ci cj, scenario_C_close !! i = Some ci
             ∧ scenario_C_close !! (i - 240) = Some cj
             ∧ g !! i = Some (PrimFloat.mul
                                (PrimFloat.div (PrimFloat.sub ci cj) cj) 100))
          ∧ (i < 240 → g !! i = Some nan).
Proof.
  assert (Hw : (240, "240d Growth") ∈ windows)
    by (unfold windows; rewrite !elem_of_cons; auto).
  assert (Hc : columns (price_frame scenario_C_close) !! "Close"
               = Some scenario_C_close) by apply lookup_singleton_eq.
  split; [auto|].
  exact (growth_column_spec (price_frame scenario_C_close) scenario_C_close
           240 "240d Growth" Hw Hc).
Defined.

Lemma calculate_velocity_frame_short :
  calculate_velocity (price_frame short_close)
  = Ok (annotated (price_frame short_close) short_close)
  ∧ Date (annotated (price_frame short_close) short_close)
    = Date (price_frame short_close)
  ∧ columns (annotated (price_frame short_close) short_close) !! "Close"
    = columns (price_frame short_close) !! "Close"
  ∧ (∀ name, name ∉ derived_columns →
       columns (annotated (price_frame short_close) short_close) !! name
       = columns (price_frame short_close) !! name)
  ∧ (∀ name, name ∈ derived_columns →
       is_Some (columns (annotated (price_frame short_close) short_close)
                  !! name)).
Proof.
  assert (H : calculate_velocity (price_frame short_close)
              = Ok (annotated (price_frame short_close) short_close))
    by (apply calculate_velocity_Ok, lookup_singleton_eq).
  split; [exact H|].
  exact (calculate_velocity_frame _ _ H).
Defined.

End Boundaries.

(** * The velocity column, and a zero at the base of a window *)

Section Velocity.
Import F64.

Lemma growth_of_nan_base (c : float) : isna (growth_of c nan) = true.
Proof.
  apply isna_true. unfold growth_of. rewrite mul_spec, div_spec, sub_spec.
  change (Prim2SF nan) with S754_nan. destruct (Prim2SF c); reflexivity.
Qed.

(** Row [i] of a growth column, from the close of the row and the entry of
    the shifted closes. *)
Lemma growth_row (close : Series) (n i : nat) (ci : float) :
  close !! i = Some ci →
  ∃ b, growth_series close n !! i = Some (growth_of ci b)
       ∧ (i < n → b = nan)
       ∧ (n ≤ i → close !! (i - n) = Some b).
Proof.
  intros Hci. pose proof (lookup_lt_Some _ _ _ Hci) as Hlen.
  destruct (lookup_lt_is_Some_2 (Series.shift n close) i) as [b Hb];
    [rewrite shift_length; exact Hlen|].
  exists b. split; [apply growth_series_lookup; assumption|]. split.
  - intros Hlt. rewrite shift_lookup_lt in Hb by assumption. congruence.
  - intros Hge. rewrite shift_lookup_ge in Hb by assumption. exact Hb.
Qed.

(** C2. The ['Velocity'] entry of every row is
    [growth240/3 + growth480/3 + growth1200/3] in float64 arithmetic (the
    factor 1 of [g * 1/3] changes nothing); it is NaN as soon as one of the
    three growth rates is NaN; and when every close is a price (positive
    and finite) it is a number exactly in the rows [i >= 1200]. *)
Theorem velocity_column_spec (data : DataFrame) (close : Series) :
  columns data !! "Close" = Some close →
  ∃ data' g240 g480 g1200 vel,
    calculate_velocity data = Ok data'
    ∧ columns data' !! "240d Growth" = Some g240
    ∧ columns data' !! "480d Growth" = Some g480
    ∧ columns data' !! "1200d Growth" = Some g1200
    ∧ columns data' !! "Velocity" = Some vel
    ∧ (∀ i, i < length close →
         ∃ x y z v,
           g240 !! i = Some x ∧ g480 !! i = Some y ∧ g1200 !! i = Some z
           ∧ vel !! i = Some v
           ∧ v = PrimFloat.add
                   (PrimFloat.add (PrimFloat.div x 3) (PrimFloat.div y 3))
                   (PrimFloat.div z 3)
           ∧ (isna x = true ∨ isna y = true ∨ isna z = true → isna v = true))
    ∧ ((∀ c, c ∈ close → is_price c = true) →
       ∀ i, i < length close →
         ∃ v, vel !! i = Some v ∧ (isna v = false ↔ 1200 ≤ i)).
Proof.
  intros Hc.
  exists (annotated data close), (growth_series close 240),
    (growth_series close 480), (growth_series close 1200),
    (velocity_series (growth_series close 240) (growth_series close 480)
                     (growth_series close 1200)).
  split; [apply calculate_velocity_Ok, Hc|].
  split; [apply (annotated_lookup_growth data close 240); unfold windows;
          rewrite !elem_of_cons; auto|].
  split; [apply (annotated_lookup_growth data close 480); unfold windows;
          rewrite !elem_of_cons; auto|].
  split; [apply (annotated_lookup_growth data close 1200); unfold windows;
          rewrite !elem_of_cons; auto|].
  split; [apply annotated_lookup_velocity|].
  split.
  - intros i Hi. destruct (lookup_lt_is_Some_2 close i Hi) as [ci Hci].
    destruct (growth_row close 240 i ci Hci) as (b1 & H1 & _).
    destruct (growth_row close 480 i ci Hci) as (b2 & H2 & _).
    destruct (growth_row close 1200 i ci Hci) as (b3 & H3 & _).
    exists (growth_of ci b1), (growth_of ci b2), (growth_of ci b3),
      (velocity_of (growth_of ci b1) (growth_of ci b2) (growth_of ci b3)).
    split; [exact H1|]. split; [exact H2|]. split; [exact H3|].
    split; [apply velocity_series_lookup; assumption|].
    split; [apply velocity_of_thirds | apply velocity_of_nan].
  - intros Hprice i Hi. destruct (lookup_lt_is_Some_2 close i Hi) as [ci Hci].
    destruct (growth_row close 240 i ci Hci) as (b1 & H1 & _ & G1).
    destruct (growth_row close 480 i ci Hci) as (b2 & H2 & _ & G2).
    destruct (growth_row close 1200 i ci Hci) as (b3 & H3 & L3 & G3).
    exists (velocity_of (growth_of ci b1) (growth_of ci b2) (growth_of ci b3)).
    split; [apply velocity_series_lookup; assumption|].
    assert (Hpi : is_price ci = true)
      by (apply Hprice, list_elem_of_lookup; eauto).
    destruct (Nat.lt_ge_cases i 1200) as [Hlt|Hge].
    + rewrite (L3 Hlt).
      rewrite velocity_of_nan by (right; right; apply growth_of_nan_base).
      split; [discriminate | lia].
    + split; [intros _; exact Hge|]. intros _.
      apply (sf_lb_notna 14), velocity_of_lb; apply growth_of_lb;
        try exact Hpi; apply Hprice, list_elem_of_lookup.
      * exists (i - 240). apply G1. lia.
      * exists (i - 480). apply G2. lia.
      * exists (i - 1200). apply G3. lia.
Qed.

Lemma velocity_column_spec_scenario_C :
  (columns (price_frame scenario_C_close) !! "Close" = Some scenario_C_close
   ∧ forallb is_price scenario_C_close = true)
  ∧ ∃ data' g240 g480 g1200 vel,
      calculate_velocity (price_frame scenario_C_close) = Ok data'
      ∧ columns data' !! "240d Growth" = Some g240
      ∧ columns data' !! "480d Growth" = Some g480
      ∧ columns data' !! "1200d Growth" = Some g1200
      ∧ columns data' !! "Velocity" = Some vel
      ∧ (∀ i, i < length scenario_C_close →
           ∃ x y z v,
             g240 !! i = Some x ∧ g480 !! i = Some y ∧ g1200 !! i = Some z
             ∧ vel !! i = Some v
             ∧ v = PrimFloat.add
                     (PrimFloat.add (PrimFloat.div x 3) (PrimFloat.div y 3))
                     (PrimFloat.div z 3)
             ∧ (isna x = true ∨ isna y = true ∨ isna z = true →
                isna v = true))
      ∧ ((∀ c, c ∈ scenario_C_close → is_price c = true) →
         ∀ i, i < length scenario_C_close →
           ∃ v, vel !! i = Some v ∧ (isna v = false ↔ 1200 ≤ i)).
Proof.
  assert (Hc : columns (price_frame scenario_C_close) !! "Close"
               = Some scenario_C_close) by apply lookup_singleton_eq.
  split; [split; [exact Hc | vm_compute; reflexivity]|].
  exact (velocity_column_spec (price_frame scenario_C_close) scenario_C_close Hc).
Defined.



End Velocity.

(** * Further properties of the code *)

Section DropnaMore.
Import F64.

Lemma select_rows_sublist {A} (keep : list bool) (l : list A) :
  select_rows keep l `sublist_of` l.
Proof.
  revert l. induction keep as [|b keep IH]; intros [|x l]; cbn;
    try apply sublist_nil_l.
  destruct b; [apply sublist_skip, IH | apply sublist_cons, IH].
Qed.

Lemma select_rows_elem {A} (keep : list bool) (l : list A) (x : A) :
  x ∈ select_rows keep l → ∃ i, keep !! i = Some true ∧ l !! i = Some x.
Proof.
  revert l. induction keep as [|b keep IH]; intros [|y l]; cbn;
    try (intros H; apply elem_of_nil in H; contradiction).
  destruct b.
  - intros [->|H]%elem_of_cons; [exists 0; auto|].
    destruct (IH l H) as (i & ? & ?). exists (S i); auto.
  - intros H. destruct (IH l H) as (i & ? & ?). exists (S i); auto.
Qed.

Lemma select_rows_length {A B} (keep : list bool) (l : list A) (k : list B) :
  length l = length k →
  length (select_rows keep l) = length (select_rows keep k).
Proof.
  revert l k. induction keep as [|b keep IH]; intros [|x l] [|y k] Hlen;
    cbn in *; try reflexivity; try discriminate.
  destruct b; cbn; rewrite (IH l k) by lia; reflexivity.
Qed.

Lemma select_rows_all {A} (n : nat) (l : list A) :
  length l ≤ n → select_rows (replicate n true) l = l.
Proof.
  revert l. induction n as [|n IH]; intros [|x l] Hlen; cbn in *;
    try reflexivity; [lia|].
  f_equal. apply IH. lia.
Qed.

Lemma fmap_seq_true (f : nat → bool) (n s : nat) :
  (∀ i, s ≤ i < s + n → f i = true) → f <$> seq s n = replicate n true.
Proof.
  revert s. induction n as [|n IH]; intros s H; [reflexivity|].
  cbn. rewrite (H s) by lia. f_equal. apply IH. intros i Hi. apply H. lia.
Qed.

Lemma keep_lookup (data : DataFrame) (i : nat) :
  (notna_row data <$> seq 0 (length (Date data))) !! i = Some true →
  notna_row data i = true.
Proof.
  rewrite list_lookup_fmap. intros H.
  destruct (seq 0 (length (Date data)) !! i) as [j|] eqn:Hj; [|discriminate].
  apply lookup_seq in Hj as [-> _]. cbn in H. congruence.
Qed.

Lemma dropna_lookup (data : DataFrame) (name : string) :
  columns (dropna data) !! name
  = select_rows (notna_row data <$> seq 0 (length (Date data)))
      <$> columns data !! name.
Proof. unfold dropna. cbn [columns]. apply lookup_fmap. Qed.

(** No NaN is left in any column after [dropna]. *)
Lemma dropna_elem_notna (data : DataFrame) (name : string) (col : Series)
        (x : float) :
  columns (dropna data) !! name = Some col → x ∈ col → isna x = false.
Proof.
  rewrite dropna_lookup. intros Hc Hx.
  destruct (columns data !! name) as [col0|] eqn:Hc0; [|discriminate].
  cbn in Hc. injection Hc as <-.
  destruct (select_rows_elem _ _ _ Hx) as (i & Hk & Hi).
  apply keep_lookup in Hk. rewrite notna_row_spec in Hk. eauto.
Qed.

Lemma dropna_wf_frame (data : DataFrame) :
  wf_frame data → wf_frame (dropna data).
Proof.
  intros Hwf name col. rewrite dropna_lookup.
  destruct (columns data !! name) as [col0|] eqn:Hc0; [|discriminate].
  cbn. intros [= <-]. unfold dropna. cbn [Date].
  apply select_rows_length, (Hwf name), Hc0.
Qed.

(** Every row of a frame that went through [dropna] passes the NaN test. *)
Lemma dropna_rows_notna (data : DataFrame) (i : nat) :
  notna_row (dropna data) i = true.
Proof.
  apply notna_row_spec. intros name col x Hc Hx.
  apply (dropna_elem_notna data name col x Hc).
  apply list_elem_of_lookup. eauto.
Qed.

Lemma dropna_notna_id (data : DataFrame) :
  wf_frame data →
  (∀ i, i < length (Date data) → notna_row data i = true) →
  dropna data = data.
Proof.
  intros Hwf Hall. destruct data as [D cols]. unfold dropna. cbn [Date columns] in *.
  rewrite fmap_seq_true by (intros i Hi; apply Hall; lia).
  f_equal; [apply select_rows_all; lia|].
  apply map_eq. intros name. rewrite lookup_fmap.
  destruct (cols !! name) as [col|] eqn:Hc; [|reflexivity].
  cbn. f_equal. apply select_rows_all. rewrite (Hwf name col Hc). cbn. lia.
Qed.

End DropnaMore.

Section CalculateMore.
Import F64.

Ltac lookup_column :=
  unfold annotated; cbn [columns Date];
  repeat first [ rewrite lookup_insert_eq
               | rewrite lookup_insert_ne by discriminate ];
  try reflexivity.

Lemma Close_not_derived : "Close" ∉ derived_columns.
Proof.
  unfold derived_columns. rewrite !elem_of_cons, elem_of_nil.
  intros [|[|[|[|[]]]]]; discriminate.
Qed.

(** X1. [calculate_velocity] fails in one way only: it raises
    [KeyError 'Close'], exactly when the frame has no ['Close'] column; with
    the column it returns a frame. *)
Theorem calculate_velocity_errors (data : DataFrame) :
  (calculate_velocity data = Raise (KeyError "Close")
   ↔ columns data !! "Close" = None)
  ∧ (∀ e, calculate_velocity data = Raise e → e = KeyError "Close")
  ∧ (is_Some (columns data !! "Close")
     ↔ ∃ data', calculate_velocity data = Ok data').
Proof.
  destruct (columns data !! "Close") as [close|] eqn:Hc.
  - rewrite (calculate_velocity_Ok data close Hc).
    split; [split; discriminate|]. split; [discriminate|].
    split; eauto.
  - rewrite (calculate_velocity_KeyError data Hc).
    split; [split; reflexivity|]. split; [intros e [= <-]; reflexivity|].
    split; [intros [? [=]] | intros [? [=]]].
Qed.

Lemma annotated_annotated (data : DataFrame) (close : Series) :
  annotated (annotated data close) close = annotated data close.
Proof.
  unfold annotated. cbn [Date columns]. f_equal. apply map_eq. intros name.
  destruct (decide (name ∈ derived_columns)) as [Hin|Hnin].
  - unfold derived_columns in Hin. rewrite !elem_of_cons, elem_of_nil in Hin.
    destruct Hin as [->|[->|[->|[->|[]]]]]; lookup_column.
  - rewrite !lookup_insert_ne
      by (intros <-; apply Hnin; unfold derived_columns;
          rewrite !elem_of_cons; auto 10).
    reflexivity.
Qed.

(** X2. Running [calculate_velocity] again on the frame it returned changes
    nothing: the four columns are recomputed from ['Close'] and overwrite
    themselves. *)
Theorem calculate_velocity_idempotent (data data' : DataFrame) :
  calculate_velocity data = Ok data' → calculate_velocity data' = Ok data'.
Proof.
  intros (close & Hc & ->)%calculate_velocity_inv.
  rewrite (calculate_velocity_Ok (annotated data close) close).
  - rewrite annotated_annotated. reflexivity.
  - rewrite annotated_lookup_other by apply Close_not_derived. exact Hc.
Qed.

(** X3. [calculate_velocity] keeps a frame well formed: the columns it
    writes have one entry per row, and the rows are the same. *)
Theorem calculate_velocity_wf (data data' : DataFrame) :
  wf_frame data → calculate_velocity data = Ok data' →
  wf_frame data' ∧ length (Date data') = length (Date data).
Proof.
  intros Hwf (close & Hc & ->)%calculate_velocity_inv.
  split; [apply annotated_wf; assumption | reflexivity].
Qed.

End CalculateMore.

Section PipelineMore.
Import F64.

Lemma select_rows_drop_false {A} (k : nat) (keep : list bool) (l : list A) :
  (∀ i, i < k → keep !! i = Some true → False) →
  select_rows keep l = select_rows (drop k keep) (drop k l).
Proof.
  revert keep l. induction k as [|k IH]; intros keep l H; [reflexivity|].
  destruct keep as [|b keep]; [destruct l; reflexivity|].
  destruct l as [|x l]; [cbn; destruct (drop k keep); reflexivity|].
  destruct b; [exfalso; apply (H 0); [lia | reflexivity]|].
  cbn. apply IH. intros i Hi. apply (H (S i)). lia.
Qed.

Lemma fmap_seq_ext {B} (f g : nat → B) (n s : nat) :
  (∀ i, s ≤ i < s + n → f i = g i) → f <$> seq s n = g <$> seq s n.
Proof.
  revert s. induction n as [|n IH]; intros s H; [reflexivity|].
  cbn. rewrite (H s) by lia. f_equal. apply IH. intros i Hi. apply H. lia.
Qed.

Lemma select_rows_ge {A} (k n s : nat) (l : list A) :
  length l = n →
  select_rows ((λ i, bool_decide (k ≤ i)) <$> seq s n) l = drop (k - s) l.
Proof.
  revert s l. induction n as [|n IH]; intros s [|x l] Hlen; try discriminate.
  - cbn. destruct (k - s); reflexivity.
  - cbn [seq fmap list_fmap select_rows]. rewrite IH by (cbn in Hlen; lia).
    case_bool_decide as Hk.
    + replace (k - s) with 0 by lia. replace (k - S s) with 0 by lia.
      reflexivity.
    + replace (k - s) with (S (k - S s)) by lia. reflexivity.
Qed.

(** The frame that [velocity_data] returns. *)
Lemma velocity_data_inv (data filtered : DataFrame) :
  velocity_data data = Ok filtered →
  ∃ close, columns data !! "Close" = Some close
           ∧ filtered = dropna (annotated data close).
Proof.
  unfold velocity_data.
  destruct (calculate_velocity data) as [a|e] eqn:Ha; [|discriminate].
  apply calculate_velocity_inv in Ha as (close & Hc & ->).
  cbn. intros [= <-]. eauto.
Qed.

Lemma keep_lookup_lt (data : DataFrame) (i : nat) :
  (notna_row data <$> seq 0 (length (Date data))) !! i = Some true →
  i < length (Date data).
Proof.
  intros H. apply lookup_lt_Some in H.
  rewrite length_fmap, length_seq in H. exact H.
Qed.

(** X9. Whatever the closes, none of the first 1200 rows is in the
    filtered frame: its dates are a sub-sequence of the dates from row 1200
    on. *)
Theorem first_rows_never_survive (data filtered : DataFrame) :
  wf_frame data → velocity_data data = Ok filtered →
  Date filtered `sublist_of` drop 1200 (Date data)
  ∧ length (Date filtered) ≤ length (Date data) - 1200.
Proof.
  intros Hwf (close & Hc & ->)%velocity_data_inv.
  assert (Hs : Date (dropna (annotated data close))
               `sublist_of` drop 1200 (Date data)).
  { unfold dropna. cbn [Date].
    rewrite (select_rows_drop_false 1200).
    - apply select_rows_sublist.
    - intros i Hi Hk. pose proof (keep_lookup_lt _ _ Hk) as Hlt.
      apply keep_lookup in Hk. cbn [annotated Date] in Hlt.
      rewrite annotated_row_dropped in Hk; [discriminate|exact Hi|].
      rewrite (Hwf _ _ Hc). exact Hlt. }
  split; [exact Hs|].
  apply sublist_length in Hs. rewrite length_drop in Hs. exact Hs.
Qed.

(** A number always gets a zone. *)
Lemma recommendation_notna (v : float) :
  isna v = false →
  ∃ z, get_trading_recommendation v = Some (recommendation z).
Proof.
  intros Hv. unfold get_trading_recommendation.
  rewrite (ltb_negb_leb 150 v eq_refl Hv), (ltb_negb_leb 100 v eq_refl Hv),
          (ltb_negb_leb 50 v eq_refl Hv), (ltb_negb_leb 0 v eq_refl Hv).
  destruct (PrimFloat.leb v 150); cbn; [|exists Bubble; reflexivity].
  destruct (PrimFloat.leb v 100); cbn; [|exists Overheated; reflexivity].
  destruct (PrimFloat.leb v 50); cbn; [|exists Normal; reflexivity].
  destruct (PrimFloat.leb v 0); cbn; [exists Retreat|exists Slow]; reflexivity.
Qed.

(** Once there is a latest row, its velocity is the last entry of the
    filtered ['Velocity'] column, it is a number, and it is what gets
    classified. *)
Lemma latest_velocity (data : DataFrame) (r : Row) :
  wf_frame data → latest_data data = Ok r →
  ∃ filtered vel v,
    velocity_data data = Ok filtered
    ∧ columns filtered !! "Velocity" = Some vel
    ∧ last vel = Some v
    ∧ row_values r !! "Velocity" = Some v
    ∧ isna v = false
    ∧ current_recommendation data = Ok (get_trading_recommendation v).
Proof.
  intros Hwf Hr. unfold current_recommendation. rewrite Hr. cbn [rbind].
  unfold latest_data in Hr.
  destruct (velocity_data data) as [f|e] eqn:Hf; [|discriminate].
  cbn [rbind] in Hr.
  apply velocity_data_inv in Hf as (close & Hc & ->).
  set (a := annotated data close) in *.
  assert (Ha : wf_frame (dropna a))
    by (apply dropna_wf_frame, annotated_wf; assumption).
  unfold iloc_last in Hr.
  destruct (last (Date (dropna a))) as [d|] eqn:Hd; [|discriminate].
  assert (r = {| row_Date := d;
                 row_values := omap last (columns (dropna a)) |}) as ->
    by congruence.
  clear Hr.
  destruct (columns (dropna a) !! "Velocity") as [vel|] eqn:Hvel.
  2:{ rewrite dropna_lookup in Hvel. unfold a in Hvel.
      rewrite annotated_lookup_velocity in Hvel. discriminate. }
  pose proof (Ha _ _ Hvel) as Hlen.
  destruct (last vel) as [v|] eqn:Hv.
  2:{ apply last_None in Hv. subst vel.
      destruct (Date (dropna a)); [discriminate Hd | discriminate Hlen]. }
  assert (Hna : isna v = false).
  { apply (dropna_elem_notna a "Velocity" vel v Hvel).
    rewrite last_lookup in Hv. apply list_elem_of_lookup. eauto. }
  assert (Hrow : omap last (columns (dropna a)) !! "Velocity" = Some v)
    by (rewrite lookup_omap, Hvel; exact Hv).
  exists (dropna a), vel, v. unfold row_getitem.
  change (row_values {| row_Date := d;
                        row_values := omap last (columns (dropna a)) |})
    with (omap last (columns (dropna a))).
  rewrite Hrow. cbn [rbind]. auto 10.
Qed.

Lemma latest_recommendation (data : DataFrame) (r : Row) :
  wf_frame data → latest_data data = Ok r →
  ∃ z, current_recommendation data = Ok (Some (recommendation z)).
Proof.
  intros Hwf Hr.
  destruct (latest_velocity data r Hwf Hr) as (f & vel & v & _ & _ & _ & _ & Hna & Hz).
  destruct (recommendation_notna v Hna) as [z Hv]. exists z. congruence.
Qed.

(** X11. On a well-formed frame the script ends in one of three ways:
    [KeyError 'Close'] when there is no such column, [IndexError] when the
    filter leaves no row, and otherwise the recommendation of a zone, never
    [None]. *)
Theorem recommendation_or_error (data : DataFrame) :
  wf_frame data →
  (columns data !! "Close" = None
   ∧ current_recommendation data = Raise (KeyError "Close"))
  ∨ (∃ filtered, velocity_data data = Ok filtered ∧ Date filtered = []
       ∧ current_recommendation data = Raise IndexError)
  ∨ (∃ latest z, latest_data data = Ok latest
       ∧ current_recommendation data = Ok (Some (recommendation z))).
Proof.
  intros Hwf. destruct (columns data !! "Close") as [close|] eqn:Hc.
  - right. destruct (latest_data data) as [r|e] eqn:Hr.
    + right. destruct (latest_recommendation data r Hwf Hr) as (z & Hz).
      eauto.
    + left. unfold current_recommendation. rewrite Hr. cbn [rbind].
      unfold latest_data, velocity_data in *.
      rewrite (calculate_velocity_Ok _ _ Hc) in *. cbn [rbind] in *.
      exists (dropna (annotated data close)). split; [reflexivity|].
      unfold iloc_last in Hr.
      destruct (last (Date (dropna (annotated data close)))) eqn:Hl;
        [discriminate|].
      apply last_None in Hl. injection Hr as <-. auto.
  - left. split; [reflexivity|].
    unfold current_recommendation, latest_data, velocity_data.
    rewrite (calculate_velocity_KeyError _ Hc). reflexivity.
Qed.

(** When every close is a price and the fetched columns hold no NaN, the
    filter removes the first 1200 rows and nothing else. *)
Lemma prices_filtered (data : DataFrame) (close : Series) :
  wf_frame data →
  columns data !! "Close" = Some close →
  (∀ c, c ∈ close → is_price c = true) →
  (∀ name col x, name ∉ derived_columns → columns data !! name = Some col →
                 x ∈ col → isna x = false) →
  dropna (annotated data close)
  = {| Date := drop 1200 (Date data);
       columns := drop 1200 <$> columns (annotated data close) |}.
Proof.
  intros Hwf Hc Hprice Hother.
  set (a := annotated data close).
  assert (Ha : wf_frame a) by (apply annotated_wf; assumption).
  pose proof (Hwf _ _ Hc) as Hlen.
  assert (Hmask : notna_row a <$> seq 0 (length (Date a))
                  = (λ i, bool_decide (1200 ≤ i)) <$> seq 0 (length (Date a))).
  { apply fmap_seq_ext. intros i [_ Hi]. cbn in Hi.
    change (length (Date a)) with (length (Date data)) in Hi.
    case_bool_decide as Hge.
    - apply notna_row_spec. intros name col x Hcol Hx.
      destruct (lookup_lt_is_Some_2 close i ltac:(lia)) as [ci Hci].
      assert (Hpi : is_price ci = true)
        by (apply Hprice, list_elem_of_lookup; eauto).
      destruct (growth_row close 240 i ci Hci) as (b1 & H1 & _ & G1).
      destruct (growth_row close 480 i ci Hci) as (b2 & H2 & _ & G2).
      destruct (growth_row close 1200 i ci Hci) as (b3 & H3 & _ & G3).
      assert (L1 : sf_lb 10 (Prim2SF (growth_of ci b1))).
      { apply growth_of_lb; [exact Hpi|].
        apply Hprice, list_elem_of_lookup. exists (i - 240). apply G1. lia. }
      assert (L2 : sf_lb 10 (Prim2SF (growth_of ci b2))).
      { apply growth_of_lb; [exact Hpi|].
        apply Hprice, list_elem_of_lookup. exists (i - 480). apply G2. lia. }
      assert (L3 : sf_lb 10 (Prim2SF (growth_of ci b3))).
      { apply growth_of_lb; [exact Hpi|].
        apply Hprice, list_elem_of_lookup. exists (i - 1200). apply G3. lia. }
      destruct (decide (name ∈ derived_columns)) as [Hin|Hnin].
      + unfold derived_columns in Hin.
        rewrite !elem_of_cons, elem_of_nil in Hin.
        destruct Hin as [->|[->|[->|[->|[]]]]].
        * unfold a in Hcol.
          rewrite (annotated_lookup_growth data close 240) in Hcol
            by (unfold windows; rewrite !elem_of_cons; auto).
          injection Hcol as <-. rewrite H1 in Hx. injection Hx as <-.
          exact (sf_lb_notna 10 _ L1).
        * unfold a in Hcol.
          rewrite (annotated_lookup_growth data close 480) in Hcol
            by (unfold windows; rewrite !elem_of_cons; auto).
          injection Hcol as <-. rewrite H2 in Hx. injection Hx as <-.
          exact (sf_lb_notna 10 _ L2).
        * unfold a in Hcol.
          rewrite (annotated_lookup_growth data close 1200) in Hcol
            by (unfold windows; rewrite !elem_of_cons; auto).
          injection Hcol as <-. rewrite H3 in Hx. injection Hx as <-.
          exact (sf_lb_notna 10 _ L3).
        * unfold a in Hcol. rewrite annotated_lookup_velocity in Hcol.
          injection Hcol as <-.
          rewrite (velocity_series_lookup _ _ _ i _ _ _ H1 H2 H3) in Hx.
          injection Hx as <-.
          exact (sf_lb_notna 14 _ (velocity_of_lb _ _ _ L1 L2 L3)).
      + unfold a in Hcol. rewrite annotated_lookup_other in Hcol by exact Hnin.
        apply (Hother name col x Hnin Hcol), list_elem_of_lookup. eauto.
    - apply annotated_row_dropped; lia. }
  unfold dropna. rewrite Hmask. f_equal.
  - rewrite select_rows_ge by reflexivity. rewrite Nat.sub_0_r. reflexivity.
  - apply map_eq. intros name. rewrite !lookup_fmap.
    destruct (columns a !! name) as [col|] eqn:Hcol; [|reflexivity].
    cbn. f_equal. rewrite select_rows_ge by (apply (Ha name), Hcol).
    rewrite Nat.sub_0_r. reflexivity.
Qed.

Lemma last_drop {A} (k : nat) (l : list A) :
  k < length l → last (drop k l) = last l.
Proof.
  intros Hk. rewrite !last_lookup, lookup_drop, length_drop. f_equal. lia.
Qed.

(** With more than 1200 rows of prices, the latest row is the last row of
    the frame. *)
Lemma prices_latest_data (data : DataFrame) (close : Series) :
  wf_frame data →
  columns data !! "Close" = Some close →
  (∀ c, c ∈ close → is_price c = true) →
  (∀ name col x, name ∉ derived_columns → columns data !! name = Some col →
                 x ∈ col → isna x = false) →
  1200 < length (Date data) →
  ∃ d, last (Date data) = Some d
       ∧ latest_data data
         = Ok {| row_Date := d;
                 row_values := omap last
                   (columns (dropna (annotated data close))) |}.
Proof.
  intros Hwf Hc Hprice Hother Hlen.
  pose proof (prices_filtered data close Hwf Hc Hprice Hother) as Hf.
  assert (Hl : last (drop 1200 (Date data)) = last (Date data))
    by (apply last_drop; exact Hlen).
  destruct (last (Date data)) as [d|] eqn:Hd.
  2:{ apply last_None in Hd. rewrite Hd in Hlen. cbn in Hlen. lia. }
  exists d. split; [reflexivity|].
  unfold latest_data, velocity_data.
  rewrite (calculate_velocity_Ok _ _ Hc). cbn [rbind].
  unfold iloc_last. rewrite Hf at 1. cbn [Date]. rewrite Hl. reflexivity.
Qed.

(** X10. With more than 1200 rows, every close a price and no NaN in the
    fetched columns, the filter removes the first 1200 rows and no other,
    from the dates and from every column; the latest row is the last row
    of the frame, with the last date and, under each column name, the last
    entry of that column (the last close among them) and nothing under
    another name; its velocity is what is classified, and the script ends
    with the recommendation of a zone. *)
Theorem prices_pipeline (data : DataFrame) (close : Series) :
  wf_frame data →
  columns data !! "Close" = Some close →
  (∀ c, c ∈ close → is_price c = true) →
  (∀ name col x, name ∉ derived_columns → columns data !! name = Some col →
                 x ∈ col → isna x = false) →
  1200 < length (Date data) →
  ∃ calculated filtered latest v z,
    calculate_velocity data = Ok calculated
    ∧ velocity_data data = Ok filtered
    ∧ Date filtered = drop 1200 (Date data)
    ∧ columns filtered = drop 1200 <$> columns calculated
    ∧ latest_data data = Ok latest
    ∧ Some (row_Date latest) = last (Date data)
    ∧ (∀ name, row_values latest !! name
               = columns calculated !! name ≫= last)
    ∧ row_values latest !! "Close" = last close
    ∧ row_values latest !! "Velocity" = Some v
    ∧ get_trading_recommendation v = Some (recommendation z)
    ∧ current_recommendation data = Ok (Some (recommendation z)).
Proof.
  intros Hwf Hc Hprice Hother Hlen.
  pose proof (prices_filtered data close Hwf Hc Hprice Hother) as Hf.
  destruct (prices_latest_data data close Hwf Hc Hprice Hother Hlen)
    as (d & Hd & Hr).
  destruct (latest_velocity data _ Hwf Hr)
    as (f & vel & v & _ & _ & _ & Hv & Hna & Hrec).
  destruct (recommendation_notna v Hna) as [z Hz].
  assert (Ha : wf_frame (annotated data close))
    by (apply annotated_wf; assumption).
  assert (Hrow : ∀ name,
            omap last (columns (dropna (annotated data close))) !! name
            = columns (annotated data close) !! name ≫= last).
  { intros name. rewrite lookup_omap, Hf. cbn [columns].
    rewrite lookup_fmap.
    destruct (columns (annotated data close) !! name) as [col|] eqn:Hcol;
      [|reflexivity].
    cbn. apply last_drop. rewrite (Ha name col Hcol). exact Hlen. }
  exists (annotated data close), (dropna (annotated data close)),
    {| row_Date := d;
       row_values := omap last (columns (dropna (annotated data close))) |},
    v, z.
  split; [apply calculate_velocity_Ok, Hc|]. split.
  { unfold velocity_data. rewrite (calculate_velocity_Ok _ _ Hc). reflexivity. }
  split; [rewrite Hf; reflexivity|]. split; [rewrite Hf; reflexivity|].
  split; [exact Hr|]. split; [rewrite Hd; reflexivity|].
  split; [exact Hrow|]. split.
  { rewrite Hrow, annotated_lookup_other by apply Close_not_derived.
    rewrite Hc. reflexivity. }
  split; [exact Hv|]. split; [exact Hz|]. rewrite Hrec, Hz. reflexivity.
Qed.

End PipelineMore.

Section ClassifierMore.
Import F64.

Lemma SFltb_leb_trans (x y z : spec_float) :
  SFltb x y = true → SFleb y z = true → SFltb x z = true.
Proof.
  unfold SFltb, SFleb.
  destruct x as [sx|sx| |sx mx ex], y as [sy|sy| |sy my ey],
           z as [sz|sz| |sz mz ez]; simpl;
    try discriminate; try (destruct sx; (discriminate || reflexivity));
    try (destruct sx, sy; (discriminate || reflexivity));
    try (destruct sx, sz; (discriminate || reflexivity));
    try (destruct sy, sz; (discriminate || reflexivity));
    try (destruct sx, sy, sz; (discriminate || reflexivity)).
  change (Pos.compare_cont Eq) with Pos.compare.
  destruct sx, sy, sz; try discriminate; try reflexivity;
    destruct (Z.compare_spec ex ey), (Z.compare_spec ey ez),
             (Z.compare_spec ex ez); try discriminate; try reflexivity;
    try lia;
    destruct (Pos.compare_spec mx my), (Pos.compare_spec my mz),
             (Pos.compare_spec mx mz); simpl;
    try discriminate; try reflexivity; lia.
Qed.

Lemma ltb_leb_trans (x y z : float) :
  PrimFloat.ltb x y = true → PrimFloat.leb y z = true →
  PrimFloat.ltb x z = true.
Proof. rewrite !ltb_spec, leb_spec. apply SFltb_leb_trans. Qed.

(** No velocity lies above a threshold while a larger one lies at or below
    a threshold that is not higher. *)
Lemma thresholds_ordered (a b v w : float) :
  isna a = false → isna b = false → PrimFloat.leb b a = true →
  PrimFloat.ltb a v = true → PrimFloat.leb v w = true →
  PrimFloat.leb w b = true → False.
Proof.
  intros Ha Hb Hba Hav Hvw Hwb.
  pose proof (ltb_leb_trans _ _ _ (ltb_leb_trans _ _ _ Hav Hvw) Hwb) as Hab.
  rewrite (ltb_negb_leb a b Ha Hb), Hba in Hab. discriminate.
Qed.

(** The zone conditions are ordered like the velocities. *)
Lemma zone_holds_monotone (v w : float) (zv zw : Zone) :
  PrimFloat.leb v w = true →
  zone_holds zv v = true → zone_holds zw w = true →
  zone_rank zv ≤ zone_rank zw.
Proof.
  intros Hvw Hv Hw.
  destruct zv, zw; cbn [zone_rank]; try lia; exfalso; cbn [zone_holds] in Hv, Hw;
    repeat match goal with
           | H : _ && _ = true |- _ => apply andb_prop in H as [? ?]
           end;
    match goal with
    | Hl : PrimFloat.ltb ?a v = true, Hu : PrimFloat.leb w ?b = true |- _ =>
        exact (thresholds_ordered a b v w eq_refl eq_refl eq_refl Hl Hvw Hu)
    end.
Qed.

(** The zone whose text the classifier returns is one whose condition
    holds. *)
Lemma recommendation_zone_holds (v : float) (z : Zone) :
  get_trading_recommendation v = Some (recommendation z) →
  zone_holds z v = true.
Proof.
  unfold get_trading_recommendation.
  destruct (PrimFloat.ltb 150 v) eqn:E1.
  { intros [= H]. apply (recommendation_inj Bubble z) in H as <-. exact E1. }
  destruct (PrimFloat.ltb 100 v && PrimFloat.leb v 150) eqn:E2.
  { intros [= H]. apply (recommendation_inj Overheated z) in H as <-.
    exact E2. }
  destruct (PrimFloat.ltb 50 v && PrimFloat.leb v 100) eqn:E3.
  { intros [= H]. apply (recommendation_inj Normal z) in H as <-. exact E3. }
  destruct (PrimFloat.ltb 0 v && PrimFloat.leb v 50) eqn:E4.
  { intros [= H]. apply (recommendation_inj Slow z) in H as <-. exact E4. }
  destruct (PrimFloat.leb v 0) eqn:E5; [|discriminate].
  intros [= H]. apply (recommendation_inj Retreat z) in H as <-. exact E5.
Qed.

Lemma leb_notna (v w : float) :
  PrimFloat.leb v w = true → isna v = false ∧ isna w = false.
Proof.
  rewrite leb_spec, !isna_false. unfold SFleb.
  destruct (Prim2SF v), (Prim2SF w); cbn; try discriminate;
    intros _; split; discriminate.
Qed.

(** X12. The classifier is monotone: when [v <= w], both velocities get the
    recommendation of a zone, and the zone that [get_trading_recommendation]
    answers for [v] is never higher than the one it answers for [w]. *)
Theorem classifier_monotone (v w : float) :
  PrimFloat.leb v w = true →
  ∃ zv zw,
    get_trading_recommendation v = Some (recommendation zv)
    ∧ get_trading_recommendation w = Some (recommendation zw)
    ∧ zone_rank zv ≤ zone_rank zw.
Proof.
  intros Hvw. destruct (leb_notna v w Hvw) as [Hv Hw].
  destruct (recommendation_notna v Hv) as [zv Hzv].
  destruct (recommendation_notna w Hw) as [zw Hzw].
  exists zv, zw. split; [exact Hzv|]. split; [exact Hzw|].
  apply (zone_holds_monotone v w); [exact Hvw| |];
    apply recommendation_zone_holds; assumption.
Qed.

End ClassifierMore.

Section FlatMarket.
Import F64.

(** A price has not moved against itself. *)
Lemma growth_of_same (c : float) : is_price c = true → growth_of c c = 0%float.
Proof.
  intros (m & e & Hc & _)%is_price_inv. apply Prim2SF_inj.
  unfold growth_of. rewrite mul_spec, div_spec, sub_spec, Hc.
  change (Prim2SF 100) with (S754_finite false 7036874417766400 (-46)).
  unfold SF64sub. cbn [SFsub cond_Zopp]. rewrite Z.sub_diag. reflexivity.
Qed.

(** X13. A flat market: when every close is one and the same price, all
    the velocities that are left are 0 and the recommendation is that of
    Retreat. *)
Theorem flat_market (data : DataFrame) (close : Series) (c : float) :
  wf_frame data →
  columns data !! "Close" = Some close →
  (∀ x, x ∈ close → x = c) →
  is_price c = true →
  (∀ name col x, name ∉ derived_columns → columns data !! name = Some col →
                 x ∈ col → isna x = false) →
  1200 < length (Date data) →
  ∃ filtered vel,
    velocity_data data = Ok filtered
    ∧ columns filtered !! "Velocity" = Some vel
    ∧ (∀ v, v ∈ vel → v = 0%float)
    ∧ current_recommendation data = Ok (Some (recommendation Retreat)).
Proof.
  intros Hwf Hc Hflat Hprice Hother Hlen.
  assert (Hprices : ∀ x, x ∈ close → is_price x = true)
    by (intros x Hx; rewrite (Hflat x Hx); exact Hprice).
  pose proof (prices_filtered data close Hwf Hc Hprices Hother) as Hf.
  set (vs := velocity_series (growth_series close 240) (growth_series close 480)
                             (growth_series close 1200)).
  assert (Hvel : columns (dropna (annotated data close)) !! "Velocity"
                 = Some (drop 1200 vs)).
  { rewrite Hf. cbn [columns]. rewrite lookup_fmap, annotated_lookup_velocity.
    reflexivity. }
  assert (Hzero : ∀ v, v ∈ drop 1200 vs → v = 0%float).
  { intros v [i Hi]%list_elem_of_lookup. rewrite lookup_drop in Hi.
    assert (Hlt : 1200 + i < length close).
    { apply lookup_lt_Some in Hi. unfold vs in Hi.
      rewrite velocity_series_length, growth_series_length in Hi
        by (rewrite !growth_series_length; reflexivity). exact Hi. }
    destruct (lookup_lt_is_Some_2 close (1200 + i) Hlt) as [ci Hci].
    destruct (growth_row close 240 _ ci Hci) as (b1 & H1 & _ & G1).
    destruct (growth_row close 480 _ ci Hci) as (b2 & H2 & _ & G2).
    destruct (growth_row close 1200 _ ci Hci) as (b3 & H3 & _ & G3).
    assert (ci = c) as -> by (apply Hflat, list_elem_of_lookup; eauto).
    assert (b1 = c) as ->
      by (apply Hflat, list_elem_of_lookup; eexists; apply G1; lia).
    assert (b2 = c) as ->
      by (apply Hflat, list_elem_of_lookup; eexists; apply G2; lia).
    assert (b3 = c) as ->
      by (apply Hflat, list_elem_of_lookup; eexists; apply G3; lia).
    rewrite (growth_of_same c Hprice) in H1, H2, H3.
    unfold vs in Hi.
    rewrite (velocity_series_lookup _ _ _ _ _ _ _ H1 H2 H3) in Hi.
    injection Hi as <-. reflexivity. }
  destruct (prices_latest_data data close Hwf Hc Hprices Hother Hlen)
    as (d & _ & Hr).
  destruct (latest_velocity data _ Hwf Hr)
    as (f' & vel & v & Hvd' & Hvel' & Hlast & _ & _ & Hrec).
  assert (f' = dropna (annotated data close)) as ->.
  { unfold velocity_data in Hvd'.
    rewrite (calculate_velocity_Ok _ _ Hc) in Hvd'. cbn in Hvd'. congruence. }
  rewrite Hvel in Hvel'. injection Hvel' as <-.
  exists (dropna (annotated data close)), (drop 1200 vs).
  split; [exact Hvd'|]. split; [exact Hvel|]. split; [exact Hzero|].
  rewrite Hrec, (Hzero v); [reflexivity|].
  rewrite last_lookup in Hlast. apply list_elem_of_lookup. eauto.
Qed.

End FlatMarket.

Section Table.
Import F64.

Lemma unique_labels_elem (names : list string) (x : string) :
  x ∈ unique_labels names ↔ x ∈ names.
Proof.
  induction names as [|n names IH]; cbn; [reflexivity|].
  rewrite !elem_of_cons, list_elem_of_filter, IH.
  destruct (decide (x = n)) as [->|Hne]; [tauto|]. tauto.
Qed.






Lemma not_found_elem (data : DataFrame) (names : list string) (x : string) :
  x ∈ not_found data names ↔ x ∈ names ∧ columns data !! x = None.
Proof.
  unfold not_found. rewrite unique_labels_elem, list_elem_of_filter.
  tauto.
Qed.

Lemma not_found_nil (data : DataFrame) (names : list string) :
  not_found data names = []
  ↔ ∀ name, name ∈ names → is_Some (columns data !! name).
Proof.
  split.
  - intros Hnil name Hn.
    destruct (columns data !! name) as [col|] eqn:Hc; [eauto|].
    assert (Hin : name ∈ not_found data names)
      by (apply not_found_elem; auto).
    rewrite Hnil in Hin. apply elem_of_nil in Hin. contradiction.
  - intros Hall. destruct (not_found data names) as [|x l] eqn:Hnf;
      [reflexivity|].
    assert (Hin : x ∈ not_found data names) by (rewrite Hnf; left).
    apply not_found_elem in Hin as [Hn Hc].
    destruct (Hall x Hn) as [col Hcol]. congruence.
Qed.

(** After a successful calculation every column of the table is there. *)
Lemma filtered_table_columns (data : DataFrame) (close : Series) (name : string) :
  columns data !! "Close" = Some close → name ∈ table_columns →
  is_Some (columns (dropna (annotated data close)) !! name).
Proof.
  intros Hc Hn. rewrite dropna_lookup.
  unfold table_columns in Hn. rewrite !elem_of_cons, elem_of_nil in Hn.
  destruct Hn as [->|[->|[->|[->|[->|[]]]]]].
  - rewrite annotated_lookup_other by apply Close_not_derived.
    rewrite Hc. eexists; reflexivity.
  - rewrite (annotated_lookup_growth data close 240)
      by (unfold windows; rewrite !elem_of_cons; auto).
    eexists; reflexivity.
  - rewrite (annotated_lookup_growth data close 480)
      by (unfold windows; rewrite !elem_of_cons; auto).
    eexists; reflexivity.
  - rewrite (annotated_lookup_growth data close 1200)
      by (unfold windows; rewrite !elem_of_cons; auto).
    eexists; reflexivity.
  - rewrite annotated_lookup_velocity. eexists; reflexivity.
Qed.

(** X14. After a successful calculation the selection of the table's
    columns does not raise: the table has the dates of the filtered frame
    and the five float columns named, with their contents, and no other
    column. *)
Theorem velocity_table_spec (data filtered : DataFrame) :
  velocity_data data = Ok filtered →
  ∃ table,
    velocity_table data = Ok table
    ∧ Date table = Date filtered
    ∧ (∀ name, name ∈ table_columns →
         is_Some (columns table !! name)
         ∧ columns table !! name = columns filtered !! name)
    ∧ (∀ name, name ∉ table_columns → columns table !! name = None).
Proof.
  intros Hf. unfold velocity_table. rewrite Hf. cbn [rbind].
  apply velocity_data_inv in Hf as (close & Hc & ->).
  pose proof (λ name, filtered_table_columns data close name Hc) as Hall.
  unfold select_columns.
  rewrite (proj2 (not_found_nil _ table_columns) Hall).
  eexists. split; [reflexivity|]. cbn [Date columns].
  split; [reflexivity|]. split.
  - intros name Hn.
    assert (Heq : filter (λ kv : string * Series, kv.1 ∈ table_columns)
                    (columns (dropna (annotated data close))) !! name
                  = columns (dropna (annotated data close)) !! name).
    { apply option_eq. intros col. rewrite map_lookup_filter_Some. cbn.
      tauto. }
    rewrite Heq. split; [apply Hall, Hn | reflexivity].
  - intros name Hn. apply map_lookup_filter_None. right.
    intros col _ Hin. exact (Hn Hin).
Qed.



(** X15. The choices of the sidebar are the keys of [ticker_mapping]: each
    choice has a ticker, anything else raises [KeyError], and two choices
    never share a ticker. *)
Theorem ticker_mapping_choices (index_choice : string) :
  (index_choice ∈ index_choices
   ↔ ∃ ticker, selected_ticker index_choice = Ok ticker)
  ∧ (index_choice ∉ index_choices
     → selected_ticker index_choice = Raise (KeyError index_choice))
  ∧ ∀ other ticker,
      selected_ticker index_choice = Ok ticker →
      selected_ticker other = Ok ticker → other = index_choice.
Proof.
  assert (Hlook : ∀ k t, ticker_mapping !! k = Some t ↔
            (k = "Nasdaq 100" ∧ t = "^NDX")
            ∨ (k = "Nasdaq Composite" ∧ t = "^IXIC")
            ∨ (k = "S&P 500" ∧ t = "^GSPC")).
  { intros k t. unfold ticker_mapping.
    rewrite !lookup_insert_Some, lookup_empty. split.
    - intros [[<- <-]|[? [[<- <-]|[? [[<- <-]|[? [=]]]]]]]; auto.
    - intros [[-> ->]|[[-> ->]|[-> ->]]]; [left; auto| |].
      + right. split; [discriminate|]. left; auto.
      + right. split; [discriminate|]. right. split; [discriminate|].
        left; auto. }
  assert (Hsel : ∀ k t, selected_ticker k = Ok t ↔ ticker_mapping !! k = Some t).
  { intros k t. unfold selected_ticker.
    destruct (ticker_mapping !! k); split; congruence. }
  assert (Hin : index_choice ∈ index_choices
                ↔ ∃ ticker, selected_ticker index_choice = Ok ticker).
  { unfold index_choices. rewrite !elem_of_cons, elem_of_nil. split.
    - intros [->|[->|[->|[]]]]; eexists; reflexivity.
    - intros [t Ht]. apply Hsel, Hlook in Ht.
      destruct Ht as [[-> _]|[[-> _]|[-> _]]]; auto. }
  split; [exact Hin|]. split.
  - intros Hnin. unfold selected_ticker.
    destruct (ticker_mapping !! index_choice) as [t|] eqn:Ht; [|reflexivity].
    exfalso. apply Hnin, Hin. exists t. apply Hsel. exact Ht.
  - intros other t H1%Hsel%Hlook H2%Hsel%Hlook.
    destruct H1 as [[-> ->]|[[-> ->]|[-> ->]]];
      destruct H2 as [[-> ?]|[[-> ?]|[-> ?]]]; try reflexivity; discriminate.
Qed.

End Table.

Section DropnaTheorems.
Import F64.

(** X4. After [dropna] no column holds a NaN, and every row passes the NaN
    test. *)
Theorem dropna_leaves_no_nan (data : DataFrame) :
  map_Forall (λ _ col, Forall (λ x, isna x = false) col)
             (columns (dropna data))
  ∧ ∀ i, notna_row (dropna data) i = true.
Proof.
  split; [|apply dropna_rows_notna].
  intros name col Hc. apply Forall_forall. intros x Hx.
  exact (dropna_elem_notna data name col x Hc Hx).
Qed.

(** X5. [dropna] keeps a well-formed frame well formed, adds no row and
    keeps the set of columns. *)
Theorem dropna_keeps_shape (data : DataFrame) :
  wf_frame data →
  wf_frame (dropna data)
  ∧ length (Date (dropna data)) ≤ length (Date data)
  ∧ dom (columns (dropna data)) = dom (columns data).
Proof.
  intros Hwf. split; [apply dropna_wf_frame, Hwf|]. split.
  - apply sublist_length. unfold dropna. cbn [Date]. apply select_rows_sublist.
  - unfold dropna. cbn [columns]. apply dom_fmap_L.
Qed.

(** X6. [dropna] only removes rows: the dates and each column it leaves
    are sub-sequences, in order, of what was there. *)
Theorem dropna_keeps_order (data : DataFrame) :
  Date (dropna data) `sublist_of` Date data
  ∧ ∀ name col, columns (dropna data) !! name = Some col →
      ∃ col0, columns data !! name = Some col0 ∧ col `sublist_of` col0.
Proof.
  split; [unfold dropna; cbn [Date]; apply select_rows_sublist|].
  intros name col. rewrite dropna_lookup.
  destruct (columns data !! name) as [col0|]; [|discriminate].
  cbn. intros [= <-]. exists col0. split; [reflexivity|].
  apply select_rows_sublist.
Qed.

(** X7. A well-formed frame that holds no NaN is left as it is by
    [dropna]. *)
Theorem dropna_unchanged_without_nan (data : DataFrame) :
  wf_frame data →
  (∀ name col x, columns data !! name = Some col → x ∈ col → isna x = false) →
  dropna data = data.
Proof.
  intros Hwf Hall. apply dropna_notna_id; [exact Hwf|].
  intros i _. apply notna_row_spec. intros name col x Hc Hx.
  apply (Hall name col x Hc), list_elem_of_lookup. eauto.
Qed.

(** X8. Filtering twice is filtering once. *)
Theorem dropna_idempotent (data : DataFrame) :
  wf_frame data → dropna (dropna data) = dropna data.
Proof.
  intros Hwf. apply dropna_notna_id; [apply dropna_wf_frame, Hwf|].
  intros i _. apply dropna_rows_notna.
Qed.

End DropnaTheorems.

Section Samples.
Import F64.

Lemma is_price_notna (c : float) : is_price c = true → isna c = false.
Proof.
  intros (m & e & Hc & _)%is_price_inv. apply isna_false. rewrite Hc.
  discriminate.
Qed.

(** The hypotheses of the price theorems, for a frame that holds a series
    of prices alone. *)
Lemma price_frame_prices (close : Series) :
  forallb is_price close = true →
  (∀ c, c ∈ close → is_price c = true)
  ∧ (∀ name col x, name ∉ derived_columns →
       columns (price_frame close) !! name = Some col →
       x ∈ col → isna x = false).
Proof.
  intros H. rewrite forallb_forall in H.
  assert (Hp : ∀ c, c ∈ close → is_price c = true)
    by (intros c Hc; apply H, list_elem_of_In, Hc).
  split; [exact Hp|].
  intros name col x _ Hcol Hx. unfold price_frame in Hcol. cbn [columns] in Hcol.
  apply lookup_singleton_Some in Hcol as [_ <-].
  apply is_price_notna, Hp, Hx.
Qed.

Lemma price_frame_velocity_data (close : Series) :
  velocity_data (price_frame close)
  = Ok (dropna (annotated (price_frame close) close)).
Proof.
  unfold velocity_data.
  rewrite (calculate_velocity_Ok _ close) by apply lookup_singleton_eq.
  reflexivity.
Qed.

Lemma calculate_velocity_idempotent_short :
  calculate_velocity (price_frame short_close)
  = Ok (annotated (price_frame short_close) short_close)
  ∧ calculate_velocity (annotated (price_frame short_close) short_close)
    = Ok (annotated (price_frame short_close) short_close).
Proof.
  assert (H : calculate_velocity (price_frame short_close)
              = Ok (annotated (price_frame short_close) short_close))
    by (apply calculate_velocity_Ok, lookup_singleton_eq).
  split; [exact H|]. exact (calculate_velocity_idempotent _ _ H).
Defined.

Lemma calculate_velocity_wf_short :
  (wf_frame (price_frame short_close)
   ∧ calculate_velocity (price_frame short_close)
     = Ok (annotated (price_frame short_close) short_close))
  ∧ wf_frame (annotated (price_frame short_close) short_close)
  ∧ length (Date (annotated (price_frame short_close) short_close))
    = length (Date (price_frame short_close)).
Proof.
  assert (Hwf : wf_frame (price_frame short_close)) by apply price_frame_wf.
  assert (H : calculate_velocity (price_frame short_close)
              = Ok (annotated (price_frame short_close) short_close))
    by (apply calculate_velocity_Ok, lookup_singleton_eq).
  split; [auto|]. exact (calculate_velocity_wf _ _ Hwf H).
Defined.

Lemma dropna_keeps_shape_scenario_C :
  wf_frame (annotated (price_frame scenario_C_close) scenario_C_close)
  ∧ wf_frame (dropna (annotated (price_frame scenario_C_close) scenario_C_close))
  ∧ length (Date (dropna (annotated (price_frame scenario_C_close)
                            scenario_C_close)))
    ≤ length (Date (annotated (price_frame scenario_C_close) scenario_C_close))
  ∧ dom (columns (dropna (annotated (price_frame scenario_C_close)
                            scenario_C_close)))
    = dom (columns (annotated (price_frame scenario_C_close) scenario_C_close)).
Proof.
  assert (Hwf : wf_frame (annotated (price_frame scenario_C_close)
                                    scenario_C_close))
    by (apply annotated_wf; [apply price_frame_wf|apply lookup_singleton_eq]).
  split; [exact Hwf|]. exact (dropna_keeps_shape _ Hwf).
Defined.

Lemma dropna_unchanged_short :
  (wf_frame (price_frame short_close)
   ∧ ∀ name col x, columns (price_frame short_close) !! name = Some col →
                   x ∈ col → isna x = false)
  ∧ dropna (price_frame short_close) = price_frame short_close.
Proof.
  assert (Hwf : wf_frame (price_frame short_close)) by apply price_frame_wf.
  assert (Hall : ∀ name col x,
            columns (price_frame short_close) !! name = Some col →
            x ∈ col → isna x = false).
  { intros name col x Hcol Hx.
    destruct (price_frame_prices short_close ltac:(vm_compute; reflexivity))
      as [Hp _].
    unfold price_frame in Hcol. cbn [columns] in Hcol.
    apply lookup_singleton_Some in Hcol as [_ <-].
    apply is_price_notna, Hp, Hx. }
  split; [auto|]. exact (dropna_unchanged_without_nan _ Hwf Hall).
Defined.

Lemma dropna_idempotent_scenario_C :
  wf_frame (annotated (price_frame scenario_C_close) scenario_C_close)
  ∧ dropna (dropna (annotated (price_frame scenario_C_close) scenario_C_close))
    = dropna (annotated (price_frame scenario_C_close) scenario_C_close).
Proof.
  assert (Hwf : wf_frame (annotated (price_frame scenario_C_close)
                                    scenario_C_close))
    by (apply annotated_wf; [apply price_frame_wf|apply lookup_singleton_eq]).
  split; [exact Hwf|]. exact (dropna_idempotent _ Hwf).
Defined.

Lemma first_rows_never_survive_scenario_C :
  (wf_frame (price_frame scenario_C_close)
   ∧ velocity_data (price_frame scenario_C_close)
     = Ok (dropna (annotated (price_frame scenario_C_close) scenario_C_close)))
  ∧ Date (dropna (annotated (price_frame scenario_C_close) scenario_C_close))
    `sublist_of` drop 1200 (Date (price_frame scenario_C_close))
  ∧ length (Date (dropna (annotated (price_frame scenario_C_close)
                            scenario_C_close)))
    ≤ length (Date (price_frame scenario_C_close)) - 1200.
Proof.
  assert (Hwf : wf_frame (price_frame scenario_C_close))
    by apply price_frame_wf.
  pose proof (price_frame_velocity_data scenario_C_close) as H.
  split; [auto|]. exact (first_rows_never_survive _ _ Hwf H).
Defined.

Lemma prices_pipeline_scenario_C :
  (wf_frame (price_frame scenario_C_close)
   ∧ columns (price_frame scenario_C_close) !! "Close" = Some scenario_C_close
   ∧ forallb is_price scenario_C_close = true
   ∧ 1200 < length (Date (price_frame scenario_C_close)))
  ∧ ∃ calculated filtered latest v z,
      calculate_velocity (price_frame scenario_C_close) = Ok calculated
      ∧ velocity_data (price_frame scenario_C_close) = Ok filtered
      ∧ Date filtered = drop 1200 (Date (price_frame scenario_C_close))
      ∧ columns filtered = drop 1200 <$> columns calculated
      ∧ latest_data (price_frame scenario_C_close) = Ok latest
      ∧ Some (row_Date latest) = last (Date (price_frame scenario_C_close))
      ∧ (∀ name, row_values latest !! name
                 = columns calculated !! name ≫= last)
      ∧ row_values latest !! "Close" = last scenario_C_close
      ∧ row_values latest !! "Velocity" = Some v
      ∧ get_trading_recommendation v = Some (recommendation z)
      ∧ current_recommendation (price_frame scenario_C_close)
        = Ok (Some (recommendation z)).
Proof.
  assert (Hwf : wf_frame (price_frame scenario_C_close))
    by apply price_frame_wf.
  assert (Hc : columns (price_frame scenario_C_close) !! "Close"
               = Some scenario_C_close) by apply lookup_singleton_eq.
  assert (Hall : forallb is_price scenario_C_close = true)
    by (vm_compute; reflexivity).
  assert (Hlen : 1200 < length (Date (price_frame scenario_C_close)))
    by (vm_compute; lia).
  destruct (price_frame_prices scenario_C_close Hall) as [Hp Ho].
  split; [auto|].
  exact (prices_pipeline _ _ Hwf Hc Hp Ho Hlen).
Defined.

Lemma recommendation_or_error_short :
  wf_frame (price_frame short_close)
  ∧ ((columns (price_frame short_close) !! "Close" = None
      ∧ current_recommendation (price_frame short_close)
        = Raise (KeyError "Close"))
     ∨ (∃ filtered, velocity_data (price_frame short_close) = Ok filtered
          ∧ Date filtered = []
          ∧ current_recommendation (price_frame short_close) = Raise IndexError)
     ∨ (∃ latest z, latest_data (price_frame short_close) = Ok latest
          ∧ current_recommendation (price_frame short_close)
            = Ok (Some (recommendation z)))).
Proof.
  assert (Hwf : wf_frame (price_frame short_close)) by apply price_frame_wf.
  split; [exact Hwf|]. exact (recommendation_or_error _ Hwf).
Defined.

Lemma classifier_monotone_90_120 :
  PrimFloat.leb 90 120 = true
  ∧ ∃ zv zw,
      get_trading_recommendation 90 = Some (recommendation zv)
      ∧ get_trading_recommendation 120 = Some (recommendation zw)
      ∧ zone_rank zv ≤ zone_rank zw.
Proof.
  split; [reflexivity|].
  exact (classifier_monotone 90 120 eq_refl).
Defined.

Lemma flat_market_100 :
  (wf_frame (price_frame flat_close)
   ∧ columns (price_frame flat_close) !! "Close" = Some flat_close
   ∧ (∀ x, x ∈ flat_close → x = 100%float)
   ∧ is_price 100 = true
   ∧ 1200 < length (Date (price_frame flat_close)))
  ∧ ∃ filtered vel,
      velocity_data (price_frame flat_close) = Ok filtered
      ∧ columns filtered !! "Velocity" = Some vel
      ∧ (∀ v, v ∈ vel → v = 0%float)
      ∧ current_recommendation (price_frame flat_close)
        = Ok (Some (recommendation Retreat)).
Proof.
  assert (Hwf : wf_frame (price_frame flat_close)) by apply price_frame_wf.
  assert (Hc : columns (price_frame flat_close) !! "Close" = Some flat_close)
    by apply lookup_singleton_eq.
  assert (Hflat : ∀ x, x ∈ flat_close → x = 100%float)
    by (intros x Hx; apply elem_of_replicate in Hx as [? _]; assumption).
  assert (Hlen : 1200 < length (Date (price_frame flat_close)))
    by (vm_compute; lia).
  destruct (price_frame_prices flat_close ltac:(vm_compute; reflexivity))
    as [_ Ho].
  split; [auto 10|].
  exact (flat_market _ _ 100%float Hwf Hc Hflat eq_refl Ho Hlen).
Defined.

Lemma velocity_table_spec_scenario_C :
  velocity_data (price_frame scenario_C_close)
  = Ok (dropna (annotated (price_frame scenario_C_close) scenario_C_close))
  ∧ ∃ table,
      velocity_table (price_frame scenario_C_close) = Ok table
      ∧ Date table
        = Date (dropna (annotated (price_frame scenario_C_close)
                          scenario_C_close))
      ∧ (∀ name, name ∈ table_columns →
           is_Some (columns table !! name)
           ∧ columns table !! name
             = columns (dropna (annotated (price_frame scenario_C_close)
                                  scenario_C_close)) !! name)
      ∧ (∀ name, name ∉ table_columns → columns table !! name = None).
Proof.
  pose proof (price_frame_velocity_data scenario_C_close) as H.
  split; [exact H|]. exact (velocity_table_spec _ _ H).
Defined.

End Samples.

Section LatestRow.
Import F64.

Lemma growth_of_nan_close (c base : float) :
  isna c = true → isna (growth_of c base) = true.
Proof.
  rewrite !isna_true. intros Hc. unfold growth_of.
  rewrite mul_spec, div_spec, sub_spec, Hc. reflexivity.
Qed.



(** X18. The latest row is the last row of the filtered frame: its date
    is the last date and, for each column of the table, its value is read
    without [KeyError], is the last entry of that column and is not NaN. *)
Theorem latest_row_values (data : DataFrame) (latest : Row) :
  wf_frame data → latest_data data = Ok latest →
  ∃ filtered,
    velocity_data data = Ok filtered
    ∧ Some (row_Date latest) = last (Date filtered)
    ∧ ∀ name, name ∈ table_columns →
        ∃ col x, columns filtered !! name = Some col
                 ∧ last col = Some x
                 ∧ row_getitem latest name = Ok x
                 ∧ isna x = false.
Proof.
  intros Hwf Hr. unfold latest_data in Hr.
  destruct (velocity_data data) as [f|e] eqn:Hf; [|discriminate].
  cbn [rbind] in Hr. exists f. split; [reflexivity|].
  apply velocity_data_inv in Hf as (close & Hc & ->).
  set (a := annotated data close) in *.
  assert (Ha : wf_frame (dropna a))
    by (apply dropna_wf_frame, annotated_wf; assumption).
  unfold iloc_last in Hr.
  destruct (last (Date (dropna a))) as [d|] eqn:Hd; [|discriminate].
  assert (latest = {| row_Date := d;
                      row_values := omap last (columns (dropna a)) |}) as ->
    by congruence.
  clear Hr. split; [reflexivity|].
  intros name Hn.
  destruct (filtered_table_columns data close name Hc Hn) as [col0 H0].
  fold a in H0.
  pose proof (Ha _ _ H0) as Hlen.
  destruct (last col0) as [x|] eqn:Hx.
  2:{ apply last_None in Hx. subst col0.
      destruct (Date (dropna a)); [discriminate Hd | discriminate Hlen]. }
  exists col0, x. split; [exact H0|]. split; [exact Hx|]. split.
  - unfold row_getitem.
    change (row_values {| row_Date := d;
                          row_values := omap last (columns (dropna a)) |})
      with (omap last (columns (dropna a))).
    rewrite lookup_omap, H0. cbn. rewrite Hx. reflexivity.
  - apply (dropna_elem_notna a name col0 x H0).
    rewrite last_lookup in Hx. apply list_elem_of_lookup. eauto.
Qed.


Lemma latest_row_values_scenario_C :
  wf_frame (price_frame scenario_C_close)
  ∧ ∃ latest,
      latest_data (price_frame scenario_C_close) = Ok latest
      ∧ ∃ filtered,
          velocity_data (price_frame scenario_C_close) = Ok filtered
          ∧ Some (row_Date latest) = last (Date filtered)
          ∧ ∀ name, name ∈ table_columns →
              ∃ col x, columns filtered !! name = Some col
                       ∧ last col = Some x
                       ∧ row_getitem latest name = Ok x
                       ∧ isna x = false.
Proof.
  assert (Hwf : wf_frame (price_frame scenario_C_close))
    by apply price_frame_wf.
  assert (Hc : columns (price_frame scenario_C_close) !! "Close"
               = Some scenario_C_close) by apply lookup_singleton_eq.
  destruct (price_frame_prices scenario_C_close ltac:(vm_compute; reflexivity))
    as [Hp Ho].
  destruct (prices_latest_data _ _ Hwf Hc Hp Ho ltac:(vm_compute; lia))
    as (d & _ & Hr).
  split; [exact Hwf|]. eexists. split; [exact Hr|].
  exact (latest_row_values _ _ Hwf Hr).
Defined.

End LatestRow.
